(** * meglib.baselib.CoordinateTransform: a shallow embedding

    The class [CoordinateTransform] of [src/meglib/baselib.py] keeps a 2x2
    matrix [A], an offset [b] and a cached inverse pair [A_inv], [b_inv].
    This file embeds the class method by method and states the properties
    of the specification about it.

    Numbers.  The arrays of the program hold IEEE doubles.  The class is
    embedded three times.  Over the canonical rationals [Qc] every
    operation is exact: these definitions carry the statements that do not
    depend on rounding, and the algebra the code performs.  Over an
    arbitrary arithmetic ([Numeric]) the methods are written with the
    operations and [linalg.inv] as parameters: what is proved there holds
    whatever the arrays hold.  Over IEEE doubles ([F64]) every operation
    rounds as float64 does: there the statements that fail by rounding are
    shown to fail.

    Libraries.  [linalg.inv] is embedded by its contract on 2x2 input (the
    inverse, or [LinAlgError] when the matrix is singular) over [Qc], and
    by LAPACK's factorisation in doubles; the numpy operations used by the
    array methods ([np.array] of a pair, [.T], [.dot], broadcasting [+],
    basic indexing) are embedded on arrays given by a shape and an element
    function. *)

From Stdlib Require Import QArith Qcanon Field Lia List String SpecFloat.
From stdpp Require Import base numbers list strings gmap.

Open Scope Qc_scope.

(** ** Python outcomes *)

(** The exceptions the embedded code can raise. *)
Inductive exn : Type :=
  | LinAlgError   (* scipy.linalg.inv on a singular matrix *)
  | NameError     (* load of a name bound nowhere *)
  | ValueError    (* numpy: inhomogeneous or misaligned shapes *)
  | IndexError.   (* too many indices, or index out of range *)

Inductive res (R : Type) : Type :=
  | Ok (r : R)
  | Raise (e : exn).
Arguments Ok {R} r.
Arguments Raise {R} e.

#[global] Instance res_ret : MRet res := fun _ r => Ok r.
#[global] Instance res_bind : MBind res := fun _ _ f m =>
  match m with
  | Ok r => f r
  | Raise e => Raise e
  end.
#[global] Instance res_fmap : FMap res := fun _ _ f m =>
  match m with
  | Ok r => Ok (f r)
  | Raise e => Raise e
  end.

(** A method body: it runs on the attributes of [self] (the state [S]) and
    ends with a value or an exception, together with the attributes as they
    are at that moment.  An exception does not roll anything back. *)
Definition M (S R : Type) : Type := S -> res R * S.

#[global] Instance M_ret {S} : MRet (M S) := fun _ r s => (Ok r, s).
#[global] Instance M_bind {S} : MBind (M S) := fun _ _ f m s =>
  match m s with
  | (Ok r, s') => f r s'
  | (Raise e, s') => (Raise e, s')
  end.

Definition raise {S R} (e : exn) : M S R := fun s => (Raise e, s).
Definition lift {S R} (m : res R) : M S R := fun s => (m, s).
Definition modify {S} (f : S -> S) : M S unit := fun s => (Ok tt, f s).
Definition gets {S R} (f : S -> R) : M S R := fun s => (Ok (f s), s).

(** [l[i]] on a Python list. *)
Definition getitem {X} (l : list X) (i : nat) : res X :=
  match l !! i with
  | Some x => Ok x
  | None => Raise IndexError
  end.

(** ** Arrays of shape (2,) and (2,2) *)

Definition q (z : Z) : Qc := Q2Qc (inject_Z z).

Record vec2 : Type := V2 { v0 : Qc; v1 : Qc }.
Record mat2 : Type := M2 { m00 : Qc; m01 : Qc; m10 : Qc; m11 : Qc }.

(** [np.identity(2)], [np.zeros(2)] *)
Definition identity2 : mat2 := M2 1 0 0 1.
Definition zeros2 : vec2 := V2 0 0.

(** [np.array([r0, r1])]: the two vectors become the rows. *)
Definition array_rows (r0 r1 : vec2) : mat2 :=
  M2 (v0 r0) (v1 r0) (v0 r1) (v1 r1).

(** [m.T] *)
Definition transpose (m : mat2) : mat2 :=
  M2 (m00 m) (m10 m) (m01 m) (m11 m).

Definition vadd (u v : vec2) : vec2 := V2 (v0 u + v0 v) (v1 u + v1 v).
Definition vsub (u v : vec2) : vec2 := V2 (v0 u - v0 v) (v1 u - v1 v).
Definition vneg (u : vec2) : vec2 := V2 (- v0 u) (- v1 u).

(** [m.dot(n)] for two matrices: rows of [m] against columns of [n]. *)
Definition mdot (m n : mat2) : mat2 :=
  M2 (m00 m * m00 n + m01 m * m10 n) (m00 m * m01 n + m01 m * m11 n)
     (m10 m * m00 n + m11 m * m10 n) (m10 m * m01 n + m11 m * m11 n).

(** [m.dot(v)]: entry k is the sum over j of m[k,j] * v[j]. *)
Definition mvdot (m : mat2) (v : vec2) : vec2 :=
  V2 (m00 m * v0 v + m01 m * v1 v) (m10 m * v0 v + m11 m * v1 v).

(** [v.dot(m)]: entry k is the sum over j of v[j] * m[j,k]. *)
Definition vmdot (v : vec2) (m : mat2) : vec2 :=
  V2 (v0 v * m00 m + v1 v * m10 m) (v0 v * m01 m + v1 v * m11 m).

Definition det (m : mat2) : Qc := m00 m * m11 m - m01 m * m10 m.

(** [linalg.inv(m)]: raises [LinAlgError] on a singular matrix, returns the
    inverse otherwise. *)
Definition inv (m : mat2) : res mat2 :=
  if decide (det m = 0) then Raise LinAlgError
  else Ok (M2 (m11 m / det m) (- m01 m / det m)
              (- m10 m / det m) (m00 m / det m)).

(** ** numpy arrays of any rank

    An array is its shape and its element at each index; an index is the
    list of its positions, one per axis.  Only the elements at indices
    within the shape are meaningful. *)

Record ndarray : Type := NdArray { shape : list nat; item : list nat -> Qc }.

Definition in_bounds (idx sh : list nat) : Prop := Forall2 lt idx sh.

Definition vec2_item (v : vec2) (k : nat) : Qc :=
  match k with O => v0 v | S _ => v1 v end.
Definition mat2_item (m : mat2) (j k : nat) : Qc :=
  match j with
  | O => vec2_item (V2 (m00 m) (m01 m)) k
  | S _ => vec2_item (V2 (m10 m) (m11 m)) k
  end.

(** [np.array([a, b])] on two arrays.  numpy (1.24 and later) refuses an
    inhomogeneous pair with [ValueError]; on equal shapes the result has a
    new leading axis of length 2. *)
Definition stack2 (a b : ndarray) : ndarray :=
  NdArray (2%nat :: shape a)
          (fun idx => match idx with
                      | [] => 0
                      | O :: r => item a r
                      | S _ :: r => item b r
                      end).
Definition np_array2 (a b : ndarray) : res ndarray :=
  if decide (shape a = shape b) then Ok (stack2 a b) else Raise ValueError.

(** [a.T]: all axes reversed. *)
Definition T (a : ndarray) : ndarray :=
  NdArray (rev (shape a)) (fun idx => item a (rev idx)).

(** [a.dot(m)] with [m] of shape (2,2): a sum over the last axis of [a] and
    the first axis of [m]; the last axis of [a] must have length 2.  A 0-d
    [a] multiplies [m] as a scalar. *)
Definition dot_last (a : ndarray) (m : mat2) : ndarray :=
  NdArray (shape a)
          (fun idx => let r := removelast idx in
                      let k := List.last idx O in
                      item a (r ++ [0%nat]) * mat2_item m 0 k
                      + item a (r ++ [1%nat]) * mat2_item m 1 k).
Definition dot_mat2 (a : ndarray) (m : mat2) : res ndarray :=
  match shape a with
  | [] => Ok (NdArray [2; 2]%nat
                (fun idx => item a [] * mat2_item m (hd O idx) (List.last idx O)))
  | _ => if decide (List.last (shape a) O = 2%nat) then Ok (dot_last a m)
         else Raise ValueError
  end.

(** [a + v] with [v] of shape (2,): [v] is broadcast along the last axis of
    [a], which must have length 2, or length 1 (and is then stretched); a
    0-d [a] is added to each entry of [v]. *)
Definition add_last (a : ndarray) (v : vec2) : ndarray :=
  NdArray (shape a) (fun idx => item a idx + vec2_item v (List.last idx O)).
Definition add_vec2 (a : ndarray) (v : vec2) : res ndarray :=
  match shape a with
  | [] => Ok (NdArray [2%nat] (fun idx => item a [] + vec2_item v (List.last idx O)))
  | _ => if decide (List.last (shape a) O = 2%nat) then Ok (add_last a v)
         else if decide (List.last (shape a) O = 1%nat) then
           Ok (NdArray (removelast (shape a) ++ [2%nat])
                 (fun idx => item a (removelast idx ++ [0%nat])
                             + vec2_item v (List.last idx O)))
         else Raise ValueError
  end.

(** [a[k, :, ..., :]] with [slices] full slices after the integer [k]:
    [IndexError] when [a] has fewer than [1 + slices] axes or [k] is out of
    range; otherwise the sub-array at position [k] of the first axis. *)
Definition take_first (a : ndarray) (k : nat) : ndarray :=
  NdArray (tl (shape a)) (fun idx => item a (k :: idx)).
Definition getitem_first (a : ndarray) (k slices : nat) : res ndarray :=
  if decide (length (shape a) < 1 + slices)%nat then Raise IndexError
  else if decide (hd O (shape a) <= k)%nat then Raise IndexError
  else Ok (take_first a k).

(** ** class CoordinateTransform *)

Module CoordinateTransform.

(** The attributes of an instance. *)
Record t : Type := Build {
  A : mat2;
  b : vec2;
  A_inv : mat2;
  b_inv : vec2;
  utm : string
}.

Definition set_A (x : mat2) (s : t) : t :=
  Build x (b s) (A_inv s) (b_inv s) (utm s).
Definition set_b (x : vec2) (s : t) : t :=
  Build (A s) x (A_inv s) (b_inv s) (utm s).
Definition set_A_inv (x : mat2) (s : t) : t :=
  Build (A s) (b s) x (b_inv s) (utm s).
Definition set_b_inv (x : vec2) (s : t) : t :=
  Build (A s) (b s) (A_inv s) x (utm s).
Definition set_utm (x : string) (s : t) : t :=
  Build (A s) (b s) (A_inv s) (b_inv s) x.

(** [__init__]: on the identity [linalg.inv] cannot raise; the
    embedding still goes through it, and through the product with [b]. *)
Definition init : res t :=
  let a := identity2 in
  let b := zeros2 in
  a_inv ← inv a;
  let b_inv := vneg (mvdot a_inv b) in
  Ok (Build a b a_inv b_inv "").

(** The name [ep_cdp_points] of line 136 is not a parameter or a local of
    [three_point_set], and neither baselib.py nor the builtins bind it:
    loading it raises [NameError]. *)
Definition ep_cdp_points : M t (list vec2) := raise NameError.

(** [three_point_set], statement by statement. *)
Definition three_point_set (x_y_points i_j_points : list vec2)
    (utm : string) : M t unit :=
  modify (set_utm utm);;
  (* dx = np.array([x_y_points[2] - x_y_points[0], x_y_points[1] - x_y_points[0]]) *)
  x2 ← lift (getitem x_y_points 2); x0 ← lift (getitem x_y_points 0);
  x1 ← lift (getitem x_y_points 1); x0' ← lift (getitem x_y_points 0);
  let dx := array_rows (vsub x2 x0) (vsub x1 x0') in
  (* ds = np.array([i_j_points[2] - i_j_points[0], i_j_points[1] - i_j_points[0]]) *)
  s2 ← lift (getitem i_j_points 2); s0 ← lift (getitem i_j_points 0);
  s1 ← lift (getitem i_j_points 1); s0' ← lift (getitem i_j_points 0);
  let ds := array_rows (vsub s2 s0) (vsub s1 s0') in
  let dx := transpose dx in
  let ds := transpose ds in
  (* self.A = dx.dot(linalg.inv(ds)) *)
  ds_inv ← lift (inv ds);
  modify (set_A (mdot dx ds_inv));;
  (* self.b = x_y_points[0] - self.A.dot(ep_cdp_points[0]) *)
  y0 ← lift (getitem x_y_points 0);
  a ← gets A;
  e ← ep_cdp_points;
  e0 ← lift (getitem e 0);
  modify (set_b (vsub y0 (mvdot a e0)));;
  (* self.A_inv = linalg.inv(self.A) *)
  a ← gets A;
  a_inv ← lift (inv a);
  modify (set_A_inv a_inv);;
  (* self.b_inv = - self.A_inv.dot(self.b) *)
  a_inv ← gets A_inv;
  b ← gets b;
  modify (set_b_inv (vneg (mvdot a_inv b))).

(** [x_y], [i_j]: column-vector form. *)
Definition x_y (self : t) (i_j : vec2) : vec2 :=
  vadd (mvdot (A self) i_j) (b self).
Definition i_j (self : t) (x_y : vec2) : vec2 :=
  vadd (mvdot (A_inv self) x_y) (b_inv self).

(** [x_y_T], [i_j_T]: row-vector form, against the transposed matrix. *)
Definition x_y_T (self : t) (ep_cdp : vec2) : vec2 :=
  vadd (vmdot ep_cdp (transpose (A self))) (b self).
Definition i_j_T (self : t) (x_y : vec2) : vec2 :=
  vadd (vmdot x_y (transpose (A_inv self))) (b_inv self).

(** [x_y_array], [i_j_array]: two coordinate arrays in, two out. *)
Definition x_y_array (self : t) (i j : ndarray) : res (ndarray * ndarray) :=
  s ← np_array2 i j;
  d ← dot_mat2 (T s) (transpose (A self));
  x ← T <$> add_vec2 d (b self);
  x0 ← getitem_first x 0 2;
  x1 ← getitem_first x 1 2;
  Ok (x0, x1).
Definition i_j_array (self : t) (x_in y_in : ndarray)
    : res (ndarray * ndarray) :=
  x ← np_array2 x_in y_in;
  d ← dot_mat2 (T x) (transpose (A_inv self));
  s ← T <$> add_vec2 d (b_inv self);
  s0 ← getitem_first s 0 2;
  s1 ← getitem_first s 1 2;
  Ok (s0, s1).

(** [x_y_vector], [i_j_vector]: the same with one slice in the result. *)
Definition x_y_vector (self : t) (ep cdp : ndarray)
    : res (ndarray * ndarray) :=
  s ← np_array2 ep cdp;
  d ← dot_mat2 (T s) (transpose (A self));
  x ← T <$> add_vec2 d (b self);
  x0 ← getitem_first x 0 1;
  x1 ← getitem_first x 1 1;
  Ok (x0, x1).
Definition i_j_vector (self : t) (x_in y_in : ndarray)
    : res (ndarray * ndarray) :=
  x ← np_array2 x_in y_in;
  d ← dot_mat2 (T x) (transpose (A_inv self));
  s ← T <$> add_vec2 d (b_inv self);
  s0 ← getitem_first s 0 1;
  s1 ← getitem_first s 1 1;
  Ok (s0, s1).

(** [a == b] on numpy arrays of shape (2,2) and (2,): the array of the
    entry-by-entry comparisons, here in row-major order; [.all()] on it. *)
Definition mat2_equal (m n : mat2) : list bool :=
  [bool_decide (m00 m = m00 n); bool_decide (m01 m = m01 n);
   bool_decide (m10 m = m10 n); bool_decide (m11 m = m11 n)].
Definition vec2_equal (u v : vec2) : list bool :=
  [bool_decide (v0 u = v0 v); bool_decide (v1 u = v1 v)].
Definition all (l : list bool) : bool := forallb id l.

(** [__eq__]: only [A] and [b] are compared. *)
Definition __eq__ (self other : t) : bool :=
  if all (mat2_equal (A self) (A other)) && all (vec2_equal (b self) (b other))
  then true else false.

(** [x_y_T], [i_j_T] on an array argument: [np.array(ep_cdp)] is then the
    array itself, of any rank, and the product runs over its last axis. *)
Definition x_y_T_nd (self : t) (ep_cdp : ndarray) : res ndarray :=
  d ← dot_mat2 ep_cdp (transpose (A self));
  add_vec2 d (b self).
Definition i_j_T_nd (self : t) (x_y : ndarray) : res ndarray :=
  d ← dot_mat2 x_y (transpose (A_inv self));
  add_vec2 d (b_inv self).

End CoordinateTransform.

Import CoordinateTransform.

(** ** Instances and arrays as objects

    The methods above work on the values of the attributes.  Whether two
    instances share an array is a question about objects: here an instance
    holds references to its arrays, every numpy call that builds an array
    allocates one, and an attribute assignment rebinds a reference. *)

Module Heap.

Definition ref : Type := nat.

Record instance : Type := Instance {
  A_ref : ref;       (* into the (2,2) arrays *)
  b_ref : ref;       (* into the (2,) arrays *)
  A_inv_ref : ref;
  b_inv_ref : ref;
  utm_val : string
}.

Record heap : Type := Mk {
  mats : list mat2;
  vecs : list vec2;
  objs : list instance
}.

Definition empty : heap := Mk [] [] [].

#[global] Instance mat2_inhabited : Inhabited mat2 := populate identity2.
#[global] Instance vec2_inhabited : Inhabited vec2 := populate zeros2.
#[global] Instance instance_inhabited : Inhabited instance :=
  populate (Instance O O O O "").

(** Allocation: the new object gets the next free reference. *)
Definition new_mat (m : mat2) : M heap ref := fun h =>
  (Ok (length (mats h)), Mk (mats h ++ [m]) (vecs h) (objs h)).
Definition new_vec (v : vec2) : M heap ref := fun h =>
  (Ok (length (vecs h)), Mk (mats h) (vecs h ++ [v]) (objs h)).
Definition new_obj (o : instance) : M heap ref := fun h =>
  (Ok (length (objs h)), Mk (mats h) (vecs h) (objs h ++ [o])).

(** Reading an array through its reference. *)
Definition load_mat (r : ref) : M heap mat2 := gets (fun h => mats h !!! r).
Definition load_vec (r : ref) : M heap vec2 := gets (fun h => vecs h !!! r).

(** [self.attr] and [self.attr = r]. *)
Definition getattr {X} (attr : instance -> X) (self : ref) : M heap X :=
  gets (fun h => attr (objs h !!! self)).
Definition setattr (upd : instance -> instance) (self : ref) : M heap unit :=
  modify (fun h => Mk (mats h) (vecs h)
                      (<[self := upd (objs h !!! self)]> (objs h))).

Definition with_A (r : ref) (o : instance) : instance :=
  Instance r (b_ref o) (A_inv_ref o) (b_inv_ref o) (utm_val o).
Definition with_b (r : ref) (o : instance) : instance :=
  Instance (A_ref o) r (A_inv_ref o) (b_inv_ref o) (utm_val o).
Definition with_A_inv (r : ref) (o : instance) : instance :=
  Instance (A_ref o) (b_ref o) r (b_inv_ref o) (utm_val o).
Definition with_b_inv (r : ref) (o : instance) : instance :=
  Instance (A_ref o) (b_ref o) (A_inv_ref o) r (utm_val o).
Definition with_utm (u : string) (o : instance) : instance :=
  Instance (A_ref o) (b_ref o) (A_inv_ref o) (b_inv_ref o) u.

(** [deepcopy] of an array: a new array with the same entries. *)
Definition deepcopy_mat (r : ref) : M heap ref := m ← load_mat r; new_mat m.
Definition deepcopy_vec (r : ref) : M heap ref := v ← load_vec r; new_vec v.

(** [CoordinateTransform()]: the four arrays of [__init__], then the
    instance holding them. *)
Definition init : M heap ref :=
  a ← new_mat identity2;
  b ← new_vec zeros2;
  m ← load_mat a;
  m_inv ← lift (inv m);
  a_inv ← new_mat m_inv;
  v ← load_vec b;
  b_inv ← new_vec (vneg (mvdot m_inv v));
  new_obj (Instance a b a_inv b_inv "").

Definition ep_cdp_points : M heap (list vec2) := raise NameError.

(** [three_point_set]: as in the class above, every assigned array a new
    object. *)
Definition three_point_set (self : ref) (x_y_points i_j_points : list vec2)
    (utm : string) : M heap unit :=
  setattr (with_utm utm) self;;
  x2 ← lift (getitem x_y_points 2); x0 ← lift (getitem x_y_points 0);
  x1 ← lift (getitem x_y_points 1); x0' ← lift (getitem x_y_points 0);
  let dx := array_rows (vsub x2 x0) (vsub x1 x0') in
  s2 ← lift (getitem i_j_points 2); s0 ← lift (getitem i_j_points 0);
  s1 ← lift (getitem i_j_points 1); s0' ← lift (getitem i_j_points 0);
  let ds := array_rows (vsub s2 s0) (vsub s1 s0') in
  let dx := transpose dx in
  let ds := transpose ds in
  ds_inv ← lift (inv ds);
  a ← new_mat (mdot dx ds_inv);
  setattr (with_A a) self;;
  y0 ← lift (getitem x_y_points 0);
  m ← getattr A_ref self ≫= load_mat;
  e ← ep_cdp_points;
  e0 ← lift (getitem e 0);
  b ← new_vec (vsub y0 (mvdot m e0));
  setattr (with_b b) self;;
  m ← getattr A_ref self ≫= load_mat;
  m_inv ← lift (inv m);
  a_inv ← new_mat m_inv;
  setattr (with_A_inv a_inv) self;;
  m_inv ← getattr A_inv_ref self ≫= load_mat;
  v ← getattr b_ref self ≫= load_vec;
  b_inv ← new_vec (vneg (mvdot m_inv v));
  setattr (with_b_inv b_inv) self.

(** [clone] *)
Definition clone (self : ref) : M heap ref :=
  new_transform ← init;
  a ← getattr A_ref self ≫= deepcopy_mat;
  setattr (with_A a) new_transform;;
  b ← getattr b_ref self ≫= deepcopy_vec;
  setattr (with_b b) new_transform;;
  a_inv ← getattr A_inv_ref self ≫= deepcopy_mat;
  setattr (with_A_inv a_inv) new_transform;;
  b_inv ← getattr b_inv_ref self ≫= deepcopy_vec;
  setattr (with_b_inv b_inv) new_transform;;
  mret new_transform.

(** [copy_obj] *)
Definition copy_obj (self old_transform : ref) : M heap ref :=
  a ← getattr A_ref old_transform ≫= deepcopy_mat;
  setattr (with_A a) self;;
  b ← getattr b_ref old_transform ≫= deepcopy_vec;
  setattr (with_b b) self;;
  a_inv ← getattr A_inv_ref old_transform ≫= deepcopy_mat;
  setattr (with_A_inv a_inv) self;;
  b_inv ← getattr b_inv_ref old_transform ≫= deepcopy_vec;
  setattr (with_b_inv b_inv) self;;
  mret self.

(** The attribute values of the instance at [self]. *)
Definition view (h : heap) (self : ref) : CoordinateTransform.t :=
  let o := objs h !!! self in
  CoordinateTransform.Build
    (mats h !!! A_ref o) (vecs h !!! b_ref o)
    (mats h !!! A_inv_ref o) (vecs h !!! b_inv_ref o) (utm_val o).

(** Every reference held by an instance points to an allocated array. *)
Definition wf_instance (h : heap) (o : instance) : Prop :=
  (A_ref o < length (mats h))%nat /\ (A_inv_ref o < length (mats h))%nat /\
  (b_ref o < length (vecs h))%nat /\ (b_inv_ref o < length (vecs h))%nat.
Definition wf (h : heap) : Prop := Forall (wf_instance h) (objs h).

(** The heap [CoordinateTransform()] leaves. *)
Definition allocated (h : heap) : heap :=
  Mk (mats h ++ [identity2; identity2])
     (vecs h ++ [zeros2; vneg (mvdot identity2 zeros2)])
     (objs h ++ [Instance (length (mats h)) (length (vecs h))
                          (S (length (mats h))) (S (length (vecs h))) ""]).

(** The heap [clone] leaves: the two pairs of arrays of the constructor,
    dropped at once, the four copies, and the new instance. *)
Definition cloned (h : heap) (self : ref) : heap :=
  let o := objs h !!! self in
  Mk (mats h ++ [identity2; identity2;
                 mats h !!! A_ref o; mats h !!! A_inv_ref o])
     (vecs h ++ [zeros2; vneg (mvdot identity2 zeros2);
                 vecs h !!! b_ref o; vecs h !!! b_inv_ref o])
     (objs h ++ [Instance (2 + length (mats h))%nat (2 + length (vecs h))%nat
                          (3 + length (mats h))%nat (3 + length (vecs h))%nat
                          ""]).

(** The arrays of [o] were allocated after [h], each on its own. *)
Definition fresh_arrays (h : heap) (o : instance) : Prop :=
  (length (mats h) <= A_ref o)%nat /\ (length (mats h) <= A_inv_ref o)%nat /\
  (length (vecs h) <= b_ref o)%nat /\ (length (vecs h) <= b_inv_ref o)%nat /\
  A_ref o <> A_inv_ref o /\ b_ref o <> b_inv_ref o.

End Heap.

(** ** class AttrDict

    A dict whose items can be read and written as attributes.  Python calls
    [__getattr__] only for a name the ordinary lookup does not find, and
    [__setattr__] on every attribute assignment. *)

Module AttrDict.
Section AttrDict.
Context {V : Type}.

(** The names the ordinary lookup finds on an instance: the attributes of
    [dict] and [object] ([keys], [items], [get], [__class__], ...).  The
    instance dictionary stays empty, since every assignment is diverted. *)
Variable dict_attribute : string -> bool.

Inductive attr : Type :=
  | Item (v : V)                (* the value stored under the name *)
  | ClassAttribute (k : string) (* what dict itself has under the name *)
  | KeyError (k : string).      (* raised by [self[k]] *)

(** [__getattr__(k)]: [return self[k]] *)
Definition __getattr__ (self : gmap string V) (k : string) : attr :=
  match self !! k with
  | Some v => Item v
  | None => KeyError k
  end.

(** [__setattr__(k, v)]: [self[k] = v] *)
Definition __setattr__ (self : gmap string V) (k : string) (v : V)
    : gmap string V :=
  <[k := v]> self.

(** [self.k] and [self.k = v] *)
Definition getattr (self : gmap string V) (k : string) : attr :=
  if dict_attribute k then ClassAttribute k else __getattr__ self k.
Definition setattr (self : gmap string V) (k : string) (v : V)
    : gmap string V :=
  __setattr__ self k v.

End AttrDict.
End AttrDict.

(** ** append_list

    The loop appends to [base_list] while it iterates over [add_list].  A
    list iterator holds a position and stops when the position reaches the
    length the list has at that moment, so it matters whether the two
    arguments are one list object.  [fuel] bounds the number of iterator
    steps; [None] means the loop is still running when it is used up. *)

Inductive add_list_arg : Type :=
  | Separate (add_list : list string)   (* a list of its own *)
  | SameObject.                         (* the object passed as base_list *)

Fixpoint append_list_from (fuel i : nat) (base_list : list string)
    (add_list : add_list_arg) (name_list : string) : option (list string) :=
  match fuel with
  | O => None
  | S fuel' =>
      let iterated := match add_list with
                      | Separate l => l
                      | SameObject => base_list
                      end in
      match iterated !! i with
      | None => Some base_list
      | Some name =>
          append_list_from fuel' (S i)
            (base_list ++ [(name +:+ "_") +:+ name_list]) add_list name_list
      end
  end.

(** [append_list(base_list, add_list, name_list)]: the list [base_list] is
    when the call returns. *)
Definition append_list (fuel : nat) (base_list : list string)
    (add_list : add_list_arg) (name_list : string) : option (list string) :=
  append_list_from fuel 0 base_list add_list name_list.

(** ** The class over any arithmetic

    What the arrays hold depends on the caller: float64 for floats, int64
    for Python ints that fit (with wrap-around), Python objects beyond.
    Here the methods are written once more over an arbitrary type of
    numbers with arbitrary operations, and with [linalg.inv] an arbitrary
    function that may raise anything, so that a statement proved of these
    definitions holds of the program whatever it computes with. *)

Module Numeric.
Section Numeric.

Variable num : Type.
Variables (add sub mul : num -> num -> num) (neg : num -> num).

Record vec : Type := Vec { c0 : num; c1 : num }.
Record mat : Type := Mat { e00 : num; e01 : num; e10 : num; e11 : num }.

(** [linalg.inv] on a (2,2) array *)
Variable linalg_inv : mat -> res mat.

Definition array_rows (r0 r1 : vec) : mat :=
  Mat (c0 r0) (c1 r0) (c0 r1) (c1 r1).
Definition transpose (m : mat) : mat :=
  Mat (e00 m) (e10 m) (e01 m) (e11 m).
Definition vadd (u v : vec) : vec := Vec (add (c0 u) (c0 v)) (add (c1 u) (c1 v)).
Definition vsub (u v : vec) : vec := Vec (sub (c0 u) (c0 v)) (sub (c1 u) (c1 v)).
Definition vneg (u : vec) : vec := Vec (neg (c0 u)) (neg (c1 u)).
Definition mdot (m n : mat) : mat :=
  Mat (add (mul (e00 m) (e00 n)) (mul (e01 m) (e10 n)))
      (add (mul (e00 m) (e01 n)) (mul (e01 m) (e11 n)))
      (add (mul (e10 m) (e00 n)) (mul (e11 m) (e10 n)))
      (add (mul (e10 m) (e01 n)) (mul (e11 m) (e11 n))).
Definition mvdot (m : mat) (v : vec) : vec :=
  Vec (add (mul (e00 m) (c0 v)) (mul (e01 m) (c1 v)))
      (add (mul (e10 m) (c0 v)) (mul (e11 m) (c1 v))).

Record t : Type := Build {
  A : mat;
  b : vec;
  A_inv : mat;
  b_inv : vec;
  utm : string
}.

Definition set_A (x : mat) (s : t) : t :=
  Build x (b s) (A_inv s) (b_inv s) (utm s).
Definition set_b (x : vec) (s : t) : t :=
  Build (A s) x (A_inv s) (b_inv s) (utm s).
Definition set_A_inv (x : mat) (s : t) : t :=
  Build (A s) (b s) x (b_inv s) (utm s).
Definition set_b_inv (x : vec) (s : t) : t :=
  Build (A s) (b s) (A_inv s) x (utm s).
Definition set_utm (x : string) (s : t) : t :=
  Build (A s) (b s) (A_inv s) (b_inv s) x.

(** The matrix [ds] (and [dx]) of [three_point_set], after [.T]. *)
Definition delta (p0 p1 p2 : vec) : mat :=
  transpose (array_rows (vsub p2 p0) (vsub p1 p0)).

Definition ep_cdp_points : M t (list vec) := raise NameError.

(** [three_point_set], statement by statement as above. *)
Definition three_point_set (x_y_points i_j_points : list vec)
    (utm : string) : M t unit :=
  modify (set_utm utm);;
  x2 ← lift (getitem x_y_points 2); x0 ← lift (getitem x_y_points 0);
  x1 ← lift (getitem x_y_points 1); x0' ← lift (getitem x_y_points 0);
  let dx := array_rows (vsub x2 x0) (vsub x1 x0') in
  s2 ← lift (getitem i_j_points 2); s0 ← lift (getitem i_j_points 0);
  s1 ← lift (getitem i_j_points 1); s0' ← lift (getitem i_j_points 0);
  let ds := array_rows (vsub s2 s0) (vsub s1 s0') in
  let dx := transpose dx in
  let ds := transpose ds in
  ds_inv ← lift (linalg_inv ds);
  modify (set_A (mdot dx ds_inv));;
  y0 ← lift (getitem x_y_points 0);
  a ← gets A;
  e ← ep_cdp_points;
  e0 ← lift (getitem e 0);
  modify (set_b (vsub y0 (mvdot a e0)));;
  a ← gets A;
  a_inv ← lift (linalg_inv a);
  modify (set_A_inv a_inv);;
  a_inv ← gets A_inv;
  b ← gets b;
  modify (set_b_inv (vneg (mvdot a_inv b))).

(** [x_y], [i_j] *)
Definition x_y (self : t) (i_j : vec) : vec :=
  vadd (mvdot (A self) i_j) (b self).
Definition i_j (self : t) (x_y : vec) : vec :=
  vadd (mvdot (A_inv self) x_y) (b_inv self).

(** The numbers the entries stand for, where they stand for one: [val]
    gives none for an infinity or a NaN. *)
Variable val : num -> option Qc.

Definition val_vec (v : vec) : option vec2 :=
  x ← val (c0 v); y ← val (c1 v); Some (V2 x y).
Definition val_mat (m : mat) : option mat2 :=
  x00 ← val (e00 m); x01 ← val (e01 m);
  x10 ← val (e10 m); x11 ← val (e11 m); Some (M2 x00 x01 x10 x11).
Definition val_t (s : t) : option CoordinateTransform.t :=
  a ← val_mat (A s); v ← val_vec (b s);
  a_inv ← val_mat (A_inv s); v_inv ← val_vec (b_inv s);
  Some (CoordinateTransform.Build a v a_inv v_inv (utm s)).


End Numeric.
End Numeric.

(** ** The class in IEEE doubles

    float64 arithmetic, every operation rounded to nearest-even, and
    [linalg.inv] as LAPACK carries it out on a (2,2) array: [getrf], an LU
    factorisation with partial pivoting, whose exact zero pivot is what
    scipy reports as [LinAlgError], then [getri]. *)

Module F64.

Definition prec : Z := 53.
Definition emax : Z := 1024.

Definition add : spec_float -> spec_float -> spec_float := SFadd prec emax.
Definition sub : spec_float -> spec_float -> spec_float := SFsub prec emax.
Definition mul : spec_float -> spec_float -> spec_float := SFmul prec emax.
Definition div : spec_float -> spec_float -> spec_float := SFdiv prec emax.
Definition neg : spec_float -> spec_float := SFopp.
Definition abs : spec_float -> spec_float := SFabs.

(** [float(z)] for an integer, [n / d] for a decimal literal such as 0.1:
    the nearest double in both cases. *)
Definition of_Z (z : Z) : spec_float := binary_normalize prec emax z 0 false.
Definition ratio (n d : Z) : spec_float := div (of_Z n) (of_Z d).

Definition zero : spec_float := S754_zero false.
Definition one : spec_float := of_Z 1.
(** The smallest normal double, LAPACK's [sfmin]. *)
Definition sfmin : spec_float := S754_finite false 4503599627370496 (-1074).

Definition is_zero (x : spec_float) : bool := SFeqb x zero.
Definition is_finite (x : spec_float) : bool :=
  match x with
  | S754_zero _ | S754_finite _ _ _ => true
  | S754_infinity _ | S754_nan => false
  end.

(** The rational a finite double is. *)
Definition val (x : spec_float) : option Qc :=
  match x with
  | S754_zero _ => Some (Q2Qc 0)
  | S754_finite s m e =>
      Some (Q2Qc (inject_Z (if s then Z.neg m else Z.pos m) * Qpower 2 e))
  | S754_infinity _ | S754_nan => None
  end.

Abbreviation vec := (Numeric.vec spec_float).
Abbreviation mat := (Numeric.mat spec_float).
Abbreviation Vec := (@Numeric.Vec spec_float).
Abbreviation Mat := (@Numeric.Mat spec_float).

(** The point (x.0, y.0): float coordinates with integer values. *)
Definition point (x y : Z) : vec := Vec (of_Z x) (of_Z y).

(** [linalg.inv(m)], with [check_finite] on as by default. *)
Definition linalg_inv (m : mat) : res mat :=
  let '(Numeric.Mat _ a00 a01 a10 a11) := m in
  if negb (is_finite a00 && is_finite a01 && is_finite a10 && is_finite a11)
  then Raise ValueError
  else
    (* getrf: the pivot of the first column is its larger entry *)
    let swap := SFltb (abs a00) (abs a10) in
    let '(p0, p1, o0, o1) :=
      if swap then (a10, a11, a00, a01) else (a00, a01, a10, a11) in
    if is_zero p0 then Raise LinAlgError
    else
      let l := if SFltb (abs p0) sfmin then div o0 p0
               else mul o0 (div one p0) in
      let u22 := sub o1 (mul l p1) in
      if is_zero u22 then Raise LinAlgError
      else
        (* getri: the inverse of U, then of L, then the columns put back *)
        let iu11 := div one p0 in
        let iu22 := div one u22 in
        let iu12 := mul (neg iu22) (mul iu11 p1) in
        let x00 := sub iu11 (mul iu12 l) in
        let x10 := sub zero (mul iu22 l) in
        Ok (if swap then Mat iu12 x00 iu22 x10 else Mat x00 iu12 x10 iu22).

Abbreviation t := (Numeric.t spec_float).
Abbreviation Build := (@Numeric.Build spec_float).

Definition three_point_set : list vec -> list vec -> string -> M t unit :=
  Numeric.three_point_set _ add sub mul neg linalg_inv.
Definition x_y : t -> vec -> vec := Numeric.x_y _ add mul.
Definition i_j : t -> vec -> vec := Numeric.i_j _ add mul.

(** [CoordinateTransform()] in doubles: [linalg.inv] of the identity and
    the negated product with zeros. *)
Definition init : res t :=
  let a := Mat one zero zero one in
  let b := Vec zero zero in
  a_inv ← linalg_inv a;
  Ok (Build a b a_inv (Numeric.vneg _ neg (Numeric.mvdot _ add mul a_inv b)) "").

End F64.

(** ** Vocabulary of the statements *)

(** A two-sided inverse. *)
Definition is_inverse (m n : mat2) : Prop :=
  mdot m n = identity2 /\ mdot n m = identity2.

(** The cached inverse agrees with the forward map. *)
Definition coherent (s : t) : Prop :=
  is_inverse (A s) (A_inv s) /\ b_inv s = vneg (mvdot (A_inv s) (b s)).

(** Three points on one line, two of them equal included: the cross product
    of the two differences from the anchor vanishes. *)
Definition collinear (p0 p1 p2 : vec2) : Prop :=
  (v0 p2 - v0 p0) * (v1 p1 - v1 p0) - (v1 p2 - v1 p0) * (v0 p1 - v0 p0) = 0.

(** The difference matrix of a triple, differences as columns. *)
Definition delta (p0 p1 p2 : vec2) : mat2 :=
  transpose (array_rows (vsub p2 p0) (vsub p1 p0)).

(** The attribute values [__init__] leaves. *)
Definition default : t := Build identity2 zeros2 identity2 zeros2 "".

(** The array both forms slice: the pair stacked, transposed, multiplied,
    shifted and transposed back. *)
Definition affine_stack (m : mat2) (v : vec2) (i j : ndarray) : ndarray :=
  T (add_last (dot_last (T (stack2 i j)) (transpose m)) v).

(** What "elementwise" says of a pair of result arrays: the shapes of the
    inputs, and at each index the image of the point made of the two input
    entries. *)
Definition elementwise (f : vec2 -> vec2) (i j : ndarray)
    (out : ndarray * ndarray) : Prop :=
  shape out.1 = shape i /\ shape out.2 = shape j /\
  forall idx, in_bounds idx (shape i) ->
    V2 (item out.1 idx) (item out.2 idx) = f (V2 (item i idx) (item j idx)).

(** The arrays [1, 2, 3] and [4, 5, 6]. *)
Definition vec123 : ndarray :=
  NdArray [3%nat] (fun idx => match idx with
                              | [O] => 1 | [S O] => q 2 | _ => q 3 end).
Definition vec456 : ndarray :=
  NdArray [3%nat] (fun idx => match idx with
                              | [O] => q 4 | [S O] => q 5 | _ => q 6 end).

(** ** Properties *)

(** Closed equalities and disequalities between rationals. *)
Ltac qc_eval := apply Qc_is_canon; vm_compute; reflexivity.
Ltac qc_neq :=
  let H := fresh in
  intros H; apply (f_equal this) in H; vm_compute in H; discriminate H.

Lemma det_mdot m n : det (mdot m n) = det m * det n.
Proof. destruct m, n; unfold det; simpl; ring. Qed.

Lemma det_identity2 : det identity2 = 1.
Proof. unfold det; simpl; ring. Qed.

Lemma det_transpose m : det (transpose m) = det m.
Proof. destruct m; unfold det; simpl; ring. Qed.

(** [inv] raises exactly on the matrices of determinant zero. *)
Lemma inv_raises m : inv m = Raise LinAlgError <-> det m = 0.
Proof.
  unfold inv; destruct (decide (det m = 0)) as [Hd|Hd]; split; intros H;
    try done.
Qed.

Lemma inv_fails m e : inv m = Raise e -> e = LinAlgError /\ det m = 0.
Proof.
  unfold inv; destruct (decide (det m = 0)) as [Hd|Hd]; intros H;
    inversion H; auto.
Qed.

(** What [inv] returns is a two-sided inverse. *)
Lemma inv_is_inverse m n : inv m = Ok n -> is_inverse m n.
Proof.
  unfold inv; destruct (decide (det m = 0)) as [Hd|Hd]; intros H;
    inversion H; subst; clear H.
  destruct m as [a b c d]; unfold det in *; simpl in *.
  split; unfold mdot, identity2; simpl; f_equal; field; exact Hd.
Qed.

(** A matrix with an inverse is not singular, and [inv] finds that
    inverse: the embedding of [linalg.inv] raises only when there is
    nothing to return. *)
Lemma is_inverse_det m n : is_inverse m n -> det m <> 0.
Proof.
  intros [H _] Hd. apply (f_equal det) in H.
  rewrite det_mdot, det_identity2, Hd in H.
  ring_simplify in H. apply (f_equal this) in H. discriminate H.
Qed.

Lemma mdot_assoc m n k : mdot (mdot m n) k = mdot m (mdot n k).
Proof. destruct m, n, k; unfold mdot; simpl; f_equal; ring. Qed.

Lemma mdot_identity2_l m : mdot identity2 m = m.
Proof. destruct m; unfold mdot; simpl; f_equal; ring. Qed.

Lemma mdot_identity2_r m : mdot m identity2 = m.
Proof. destruct m; unfold mdot; simpl; f_equal; ring. Qed.

Lemma is_inverse_unique m n n' : is_inverse m n -> is_inverse m n' -> n = n'.
Proof.
  intros [_ H2] [H1' _].
  rewrite <- (mdot_identity2_r n), <- H1', <- mdot_assoc, H2.
  apply mdot_identity2_l.
Qed.

Lemma inv_complete m n : is_inverse m n -> inv m = Ok n.
Proof.
  intros H. pose proof (is_inverse_det _ _ H) as Hd.
  destruct (inv m) as [n'|e] eqn:E.
  - f_equal. eapply is_inverse_unique; [apply inv_is_inverse|]; eassumption.
  - apply inv_fails in E. tauto.
Qed.







(** *** The three-point fit *)

Lemma det_delta p0 p1 p2 :
  det (delta p0 p1 p2)
  = (v0 p2 - v0 p0) * (v1 p1 - v1 p0) - (v1 p2 - v1 p0) * (v0 p1 - v0 p0).
Proof. destruct p0, p1, p2; unfold det; simpl; ring. Qed.

Lemma collinear_det p0 p1 p2 : collinear p0 p1 p2 <-> det (delta p0 p1 p2) = 0.
Proof. unfold collinear; rewrite det_delta; tauto. Qed.

(** On a degenerate source triple the fit stops in [linalg.inv(ds)], with
    only [utm] assigned. *)
Lemma three_point_set_singular s d0 d1 d2 s0 s1 s2 label :
  collinear s0 s1 s2 ->
  three_point_set [d0; d1; d2] [s0; s1; s2] label s
  = (Raise LinAlgError, set_utm label s).
Proof.
  intros H. apply collinear_det in H. apply inv_raises in H.
  unfold delta in H.
  unfold three_point_set, mbind, M_bind, lift, modify; simpl.
  rewrite H. reflexivity.
Qed.

(** On any other source triple it assigns [A] and stops at the load of
    [ep_cdp_points]. *)
Lemma three_point_set_regular s d0 d1 d2 s0 s1 s2 label :
  ~ collinear s0 s1 s2 ->
  exists ds_inv,
    inv (delta s0 s1 s2) = Ok ds_inv /\
    three_point_set [d0; d1; d2] [s0; s1; s2] label s
    = (Raise NameError,
       set_A (mdot (delta d0 d1 d2) ds_inv) (set_utm label s)).
Proof.
  intros H. rewrite collinear_det in H.
  destruct (inv (delta s0 s1 s2)) as [n|e] eqn:E.
  2:{ apply inv_fails in E. tauto. }
  exists n; split; [reflexivity|].
  unfold delta in E.
  unfold three_point_set, mbind, M_bind, lift, modify; simpl.
  rewrite E. reflexivity.
Qed.

(** The fit never completes. *)
Lemma three_point_set_never_returns s x_y_points i_j_points label s' :
  three_point_set x_y_points i_j_points label s <> (Ok tt, s').
Proof.
  unfold three_point_set, mbind, M_bind, lift, modify, gets, ep_cdp_points,
    raise; simpl.
  repeat (match goal with
          | |- context [getitem ?l ?i] => destruct (getitem l i); simpl
          | |- context [inv ?m] => destruct (inv m); simpl
          end; try discriminate).
Qed.

(** The matrix the fit assigns is the one of the specification, and with
    the offset taken from the anchor it maps each source point to its
    destination point. *)
Lemma anchor_fit_exact d0 d1 d2 s0 s1 s2 ds_inv :
  inv (delta s0 s1 s2) = Ok ds_inv ->
  let a := mdot (delta d0 d1 d2) ds_inv in
  let off := vsub d0 (mvdot a s0) in
  vadd (mvdot a s0) off = d0 /\
  vadd (mvdot a s1) off = d1 /\
  vadd (mvdot a s2) off = d2.
Proof.
  intros E a off. apply inv_is_inverse in E. destruct E as [_ E].
  assert (Ha : mdot a (delta s0 s1 s2) = delta d0 d1 d2).
  { unfold a. rewrite mdot_assoc, E. apply mdot_identity2_r. }
  clearbody a. clear E. subst off.
  destruct a as [a00 a01 a10 a11], d0 as [d00 d01], d1 as [d10 d11],
    d2 as [d20 d21], s0 as [s00 s01], s1 as [s10 s11], s2 as [s20 s21].
  unfold delta, mdot, array_rows, transpose, vsub in Ha.
  pose proof (f_equal m00 Ha) as E1. pose proof (f_equal m01 Ha) as E2.
  pose proof (f_equal m10 Ha) as E3. pose proof (f_equal m11 Ha) as E4.
  cbn [v0 v1 m00 m01 m10 m11] in E1, E2, E3, E4. clear Ha.
  unfold vadd, vsub, mvdot; cbn [v0 v1 m00 m01 m10 m11].
  repeat split; f_equal.
  - ring.
  - ring.
  - transitivity (d00 + (a00 * (s10 - s00) + a01 * (s11 - s01))); [ring|].
    rewrite E2; ring.
  - transitivity (d01 + (a10 * (s10 - s00) + a11 * (s11 - s01))); [ring|].
    rewrite E4; ring.
  - transitivity (d00 + (a00 * (s20 - s00) + a01 * (s21 - s01))); [ring|].
    rewrite E1; ring.
  - transitivity (d01 + (a10 * (s20 - s00) + a11 * (s21 - s01))); [ring|].
    rewrite E3; ring.
Qed.

Lemma mat2_ext m n :
  m00 m = m00 n -> m01 m = m01 n -> m10 m = m10 n -> m11 m = m11 n -> m = n.
Proof. destruct m, n; simpl; intros; subst; reflexivity. Qed.

Lemma vec2_ext u v : v0 u = v0 v -> v1 u = v1 v -> u = v.
Proof. destruct u, v; simpl; intros; subst; reflexivity. Qed.

(** Closed equalities between small arrays. *)
Ltac arr_eval := first [apply mat2_ext | apply vec2_ext]; qc_eval.

Lemma inv_identity2 : inv identity2 = Ok identity2.
Proof. apply inv_complete. split; apply mdot_identity2_l. Qed.

Lemma init_default : init = Ok default.
Proof.
  unfold init. rewrite inv_identity2. unfold default.
  cbn [mbind res_bind]. do 2 f_equal; try (apply vec2_ext; simpl; ring).
Qed.

Lemma default_coherent : coherent default.
Proof.
  split; [split; apply mdot_identity2_l|].
  apply vec2_ext; simpl; ring.
Qed.

(** C7. The constructor builds the identity transform: [A] and [A_inv] are
    the identity matrix, [b] and [b_inv] are zero, and [x_y] and [i_j]
    return every point unchanged. *)
Theorem default_is_identity :
  exists s, init = Ok s /\
    A s = identity2 /\ b s = zeros2 /\
    A_inv s = identity2 /\ b_inv s = zeros2 /\
    forall p, x_y s p = p /\ i_j s p = p.
Proof.
  exists default. split; [apply init_default|]. repeat split.
  - unfold x_y; simpl. destruct p; apply vec2_ext; simpl; ring.
  - unfold i_j; simpl. destruct p; apply vec2_ext; simpl; ring.
Qed.

(** C6. The row-vector forms return the same point as the column-vector
    forms: [x_y_T] agrees with [x_y] and [i_j_T] with [i_j], for every
    transform and every point. *)
Theorem transposed_forms_agree (s : t) (p : vec2) :
  x_y_T s p = x_y s p /\ i_j_T s p = i_j s p.
Proof.
  unfold x_y_T, x_y, i_j_T, i_j.
  split; f_equal; apply vec2_ext; simpl; ring.
Qed.

(** C1. On the source triple (0,0), (1,0), (0,1) and the destination triple
    (5,5), (6,5), (5,6), neither collinear, [three_point_set] called on a
    new transform raises [NameError] at the load of [ep_cdp_points]: [b] is
    never assigned, it is still zero, and [x_y] sends the anchor (0,0) to
    (0,0), not to (5,5). *)
Theorem fit_stops_before_offset :
  let r := three_point_set [V2 (q 5) (q 5); V2 (q 6) (q 5); V2 (q 5) (q 6)]
             [V2 0 0; V2 1 0; V2 0 1] "" default in
  ~ collinear (V2 0 0) (V2 1 0) (V2 0 1) /\
  ~ collinear (V2 (q 5) (q 5)) (V2 (q 6) (q 5)) (V2 (q 5) (q 6)) /\
  r.1 = Raise NameError /\ b r.2 = zeros2 /\
  x_y r.2 (V2 0 0) = V2 0 0 /\ x_y r.2 (V2 0 0) <> V2 (q 5) (q 5).
Proof.
  intros r.
  assert (Hs : ~ collinear (V2 0 0) (V2 1 0) (V2 0 1)) by (unfold collinear; qc_neq).
  destruct (three_point_set_regular default
              (V2 (q 5) (q 5)) (V2 (q 6) (q 5)) (V2 (q 5) (q 6))
              (V2 0 0) (V2 1 0) (V2 0 1) "" Hs) as (n & _ & E).
  subst r. rewrite E. clear E.
  assert (Hx : x_y (set_A (mdot (delta (V2 (q 5) (q 5)) (V2 (q 6) (q 5))
                                   (V2 (q 5) (q 6))) n)
                      (set_utm "" default)) (V2 0 0) = V2 0 0).
  { unfold x_y; apply vec2_ext; simpl; ring. }
  split; [exact Hs|]. split; [unfold collinear; qc_neq|].
  split; [reflexivity|]. split; [reflexivity|]. split; [exact Hx|].
  cbn [snd]. rewrite Hx. intros H. apply (f_equal v0) in H.
  cbn [v0] in H. revert H. qc_neq.
Qed.

(** C2. The source triple (0,0), (1,0), (0,1) is not collinear, the
    difference matrix is invertible, and the fit fails all the same: it
    raises [NameError]. *)
Theorem regular_fit_raises_name_error :
  let r := three_point_set [V2 (q 2) (q 1); V2 (q 4) (q 1); V2 (q 2) (q 5)]
             [V2 0 0; V2 1 0; V2 0 1] "" default in
  ~ collinear (V2 0 0) (V2 1 0) (V2 0 1) /\
  det (delta (V2 0 0) (V2 1 0) (V2 0 1)) <> 0 /\
  r.1 = Raise NameError.
Proof.
  intros r.
  assert (Hs : ~ collinear (V2 0 0) (V2 1 0) (V2 0 1)) by (unfold collinear; qc_neq).
  split; [exact Hs|]. split; [rewrite <- collinear_det; exact Hs|].
  destruct (three_point_set_regular default
              (V2 (q 2) (q 1)) (V2 (q 4) (q 1)) (V2 (q 2) (q 5))
              (V2 0 0) (V2 1 0) (V2 0 1) "" Hs) as (n & _ & E).
  subst r. rewrite E. reflexivity.
Qed.

(** C8. A new transform is coherent.  After [three_point_set] on it with
    source (0,0), (1,0), (0,1) and destination (5,5), (7,5), (5,6), which
    raises [NameError], [A] is diag(2,1) and [A_inv] is still the identity:
    the cache is no longer the inverse of [A]. *)
Theorem fit_leaves_stale_inverse :
  let r := three_point_set [V2 (q 5) (q 5); V2 (q 7) (q 5); V2 (q 5) (q 6)]
             [V2 0 0; V2 1 0; V2 0 1] "" default in
  init = Ok default /\ coherent default /\
  r.1 = Raise NameError /\
  A r.2 = M2 (q 2) 0 0 1 /\ A_inv r.2 = identity2 /\ ~ coherent r.2.
Proof.
  intros r.
  assert (HA : A r.2 = M2 (q 2) 0 0 1) by (subst r; arr_eval).
  assert (HI : A_inv r.2 = identity2) by (subst r; arr_eval).
  split; [apply init_default|]. split; [apply default_coherent|].
  split; [subst r; vm_compute; reflexivity|].
  split; [exact HA|]. split; [exact HI|].
  intros [[H _] _]. rewrite HA, HI in H.
  apply (f_equal m00) in H. revert H. qc_neq.
Qed.

(** *** Array and vector forms *)

Lemma np_array2_same a b : shape a = shape b -> np_array2 a b = Ok (stack2 a b).
Proof. intros H. unfold np_array2. rewrite decide_True by exact H. reflexivity. Qed.

Lemma np_array2_differ a b : shape a <> shape b -> np_array2 a b = Raise ValueError.
Proof. intros H. unfold np_array2. rewrite decide_False by exact H. reflexivity. Qed.

Lemma dot_mat2_last a m :
  shape a <> [] -> List.last (shape a) O = 2%nat ->
  dot_mat2 a m = Ok (dot_last a m).
Proof.
  intros Hne H. unfold dot_mat2. destruct (shape a) as [|n sh] eqn:E; [done|].
  rewrite decide_True by exact H. reflexivity.
Qed.

Lemma add_vec2_last a v :
  shape a <> [] -> List.last (shape a) O = 2%nat ->
  add_vec2 a v = Ok (add_last a v).
Proof.
  intros Hne H. unfold add_vec2. destruct (shape a) as [|n sh] eqn:E; [done|].
  rewrite decide_True by exact H. reflexivity.
Qed.

Lemma getitem_first_take a k slices :
  (1 + slices <= length (shape a))%nat -> (k < hd O (shape a))%nat ->
  getitem_first a k slices = Ok (take_first a k).
Proof.
  intros H1 H2. unfold getitem_first.
  rewrite decide_False by lia. rewrite decide_False by lia. reflexivity.
Qed.

Lemma getitem_first_few_axes a k slices :
  (length (shape a) < 1 + slices)%nat -> getitem_first a k slices = Raise IndexError.
Proof. intros H. unfold getitem_first. rewrite decide_True by exact H. reflexivity. Qed.

Lemma affine_stack_shape m v i j : shape (affine_stack m v i j) = 2%nat :: shape i.
Proof. unfold affine_stack; simpl. rewrite rev_app_distr, rev_involutive. reflexivity. Qed.

Lemma affine_stack_item m v i j k idx :
  item (affine_stack m v i j) (k :: idx)
  = mat2_item m k 0 * item i idx + mat2_item m k 1 * item j idx + vec2_item v k.
Proof.
  unfold affine_stack; cbn [item T add_last dot_last stack2 rev].
  rewrite removelast_last, last_last, !rev_unit, rev_involutive.
  destruct m, k; cbn [mat2_item vec2_item transpose m00 m01 m10 m11 v0 v1]; ring.
Qed.

(** The pipeline shared by the four methods succeeds on equal shapes. *)
Lemma affine_pipeline m v i j :
  shape i = shape j ->
  (s ← np_array2 i j; d ← dot_mat2 (T s) (transpose m); T <$> add_vec2 d v)
  = Ok (affine_stack m v i j).
Proof.
  intros H. rewrite np_array2_same by exact H. cbn [mbind res_bind].
  assert (Hl : List.last (shape (T (stack2 i j))) O = 2%nat).
  { cbn [shape T stack2 rev]. apply last_last. }
  assert (Hn : shape (T (stack2 i j)) <> []).
  { cbn [shape T stack2 rev]. intros E. apply app_eq_nil in E. destruct E; discriminate. }
  rewrite dot_mat2_last by assumption. cbn [mbind res_bind].
  rewrite add_vec2_last by assumption. reflexivity.
Qed.

Lemma affine_slices_elementwise m v i j slices :
  shape i = shape j -> (slices <= length (shape i))%nat ->
  exists o,
    (x ← Ok (affine_stack m v i j);
     x0 ← getitem_first x 0 slices; x1 ← getitem_first x 1 slices; Ok (x0, x1))
    = Ok o /\
    elementwise (fun p => vadd (mvdot m p) v) i j o.
Proof.
  intros H Hr. cbn [mbind res_bind].
  rewrite !getitem_first_take by (rewrite affine_stack_shape; simpl; lia).
  eexists; split; [reflexivity|].
  unfold elementwise, take_first; cbn [fst snd shape item].
  rewrite affine_stack_shape; cbn [tl].
  split; [reflexivity|]. split; [exact H|].
  intros idx _. rewrite !affine_stack_item.
  unfold vadd, mvdot; destruct m; cbn [mat2_item vec2_item v0 v1 m00 m01 m10 m11].
  reflexivity.
Qed.

(** Each method is the shared pipeline followed by its two index
    expressions. *)
Ltac by_pipeline :=
  intros; cbv beta delta [x_y_array i_j_array x_y_vector i_j_vector];
  destruct (np_array2 _ _); [cbn [mbind res_bind]|reflexivity];
  destruct (dot_mat2 _ _); reflexivity.

Lemma x_y_array_pipeline self i j :
  x_y_array self i j
  = (s ← np_array2 i j; d ← dot_mat2 (T s) (transpose (A self));
     T <$> add_vec2 d (b self))
    ≫= (fun x => x0 ← getitem_first x 0 2; x1 ← getitem_first x 1 2; Ok (x0, x1)).
Proof. by_pipeline. Qed.

Lemma i_j_array_pipeline self i j :
  i_j_array self i j
  = (s ← np_array2 i j; d ← dot_mat2 (T s) (transpose (A_inv self));
     T <$> add_vec2 d (b_inv self))
    ≫= (fun x => x0 ← getitem_first x 0 2; x1 ← getitem_first x 1 2; Ok (x0, x1)).
Proof. by_pipeline. Qed.

Lemma x_y_vector_pipeline self i j :
  x_y_vector self i j
  = (s ← np_array2 i j; d ← dot_mat2 (T s) (transpose (A self));
     T <$> add_vec2 d (b self))
    ≫= (fun x => x0 ← getitem_first x 0 1; x1 ← getitem_first x 1 1; Ok (x0, x1)).
Proof. by_pipeline. Qed.

Lemma i_j_vector_pipeline self i j :
  i_j_vector self i j
  = (s ← np_array2 i j; d ← dot_mat2 (T s) (transpose (A_inv self));
     T <$> add_vec2 d (b_inv self))
    ≫= (fun x => x0 ← getitem_first x 0 1; x1 ← getitem_first x 1 1; Ok (x0, x1)).
Proof. by_pipeline. Qed.

(** C5. When the two input arrays differ in shape, each of the four array
    and vector forms raises [ValueError], at its first statement, and
    returns no array. *)
Theorem mismatched_shapes_raise (self : t) (i j : ndarray) :
  shape i <> shape j ->
  x_y_array self i j = Raise ValueError /\
  i_j_array self i j = Raise ValueError /\
  x_y_vector self i j = Raise ValueError /\
  i_j_vector self i j = Raise ValueError.
Proof.
  intros H.
  unfold x_y_array, i_j_array, x_y_vector, i_j_vector.
  rewrite (np_array2_differ i j H). repeat split.
Qed.

Lemma mismatched_shapes_raise_witness :
  let i := NdArray [3; 4]%nat (fun _ => 1) in
  let j := NdArray [3; 5]%nat (fun _ => 0) in
  shape i <> shape j /\
  x_y_array default i j = Raise ValueError /\
  i_j_array default i j = Raise ValueError /\
  x_y_vector default i j = Raise ValueError /\
  i_j_vector default i j = Raise ValueError.
Proof.
  intros i j.
  assert (H : shape i <> shape j) by (simpl; discriminate).
  split; [exact H|]. exact (mismatched_shapes_raise default i j H).
Defined.

(** C4, as the code has it. On two arrays of one shape, [x_y_array] and
    [i_j_array] return, when the rank is at least 2, two arrays of that
    shape holding at each index the image under [x_y] (under [i_j]) of the
    point made of the two input entries; [x_y_vector] and [i_j_vector] do so
    when the rank is at least 1. *)
Theorem array_forms_elementwise (self : t) (i j : ndarray) :
  shape i = shape j ->
  ((2 <= length (shape i))%nat ->
     (exists o, x_y_array self i j = Ok o /\ elementwise (x_y self) i j o) /\
     (exists o, i_j_array self i j = Ok o /\ elementwise (i_j self) i j o)) /\
  ((1 <= length (shape i))%nat ->
     (exists o, x_y_vector self i j = Ok o /\ elementwise (x_y self) i j o) /\
     (exists o, i_j_vector self i j = Ok o /\ elementwise (i_j self) i j o)).
Proof.
  intros H. split; intros Hr; split.
  - rewrite x_y_array_pipeline, affine_pipeline by exact H.
    exact (affine_slices_elementwise (A self) (b self) i j 2 H Hr).
  - rewrite i_j_array_pipeline, affine_pipeline by exact H.
    exact (affine_slices_elementwise (A_inv self) (b_inv self) i j 2 H Hr).
  - rewrite x_y_vector_pipeline, affine_pipeline by exact H.
    exact (affine_slices_elementwise (A self) (b self) i j 1 H Hr).
  - rewrite i_j_vector_pipeline, affine_pipeline by exact H.
    exact (affine_slices_elementwise (A_inv self) (b_inv self) i j 1 H Hr).
Qed.

(** X10. Below those ranks the index expression has too many indices: on
    every pair of same-shaped arrays of rank below 2 the array forms raise
    [IndexError], and on every pair of 0-d arrays the vector forms do. *)
Lemma array_forms_low_rank (self : t) (i j : ndarray) :
  shape i = shape j ->
  ((length (shape i) < 2)%nat ->
     x_y_array self i j = Raise IndexError /\
     i_j_array self i j = Raise IndexError) /\
  ((length (shape i) < 1)%nat ->
     x_y_vector self i j = Raise IndexError /\
     i_j_vector self i j = Raise IndexError).
Proof.
  intros H. split; intros Hr; split.
  - rewrite x_y_array_pipeline, affine_pipeline by exact H. cbn [mbind res_bind].
    rewrite !getitem_first_few_axes
      by (rewrite affine_stack_shape; simpl; lia).
    reflexivity.
  - rewrite i_j_array_pipeline, affine_pipeline by exact H. cbn [mbind res_bind].
    rewrite !getitem_first_few_axes
      by (rewrite affine_stack_shape; simpl; lia).
    reflexivity.
  - rewrite x_y_vector_pipeline, affine_pipeline by exact H. cbn [mbind res_bind].
    rewrite !getitem_first_few_axes
      by (rewrite affine_stack_shape; simpl; lia).
    reflexivity.
  - rewrite i_j_vector_pipeline, affine_pipeline by exact H. cbn [mbind res_bind].
    rewrite !getitem_first_few_axes
      by (rewrite affine_stack_shape; simpl; lia).
    reflexivity.
Qed.

(** C4 fails at rank 1: the two arrays have one shape and rank 1, and
    [x_y_array] and [i_j_array] return nothing, they raise [IndexError]. *)
Lemma array_forms_rank1_raise :
  shape vec123 = shape vec456 /\ length (shape vec123) = 1%nat /\
  x_y_array default vec123 vec456 = Raise IndexError /\
  i_j_array default vec123 vec456 = Raise IndexError /\
  ~ (exists o, x_y_array default vec123 vec456 = Ok o
               /\ elementwise (x_y default) vec123 vec456 o).
Proof.
  assert (H : x_y_array default vec123 vec456 = Raise IndexError)
    by (vm_compute; reflexivity).
  split; [reflexivity|]. split; [reflexivity|]. split; [exact H|].
  split; [vm_compute; reflexivity|].
  intros (o & E & _). rewrite H in E. discriminate E.
Qed.

Lemma array_forms_elementwise_witness :
  let i := NdArray [2; 3]%nat (fun idx => q (Z.of_nat (hd O idx))) in
  let j := NdArray [2; 3]%nat (fun idx => q (Z.of_nat (List.last idx O))) in
  shape i = shape j /\ (2 <= length (shape i))%nat /\
  (exists o, x_y_array default i j = Ok o /\ elementwise (x_y default) i j o) /\
  (exists o, i_j_array default i j = Ok o /\ elementwise (i_j default) i j o) /\
  (exists o, x_y_vector default vec123 vec456 = Ok o
             /\ elementwise (x_y default) vec123 vec456 o) /\
  (exists o, i_j_vector default vec123 vec456 = Ok o
             /\ elementwise (i_j default) vec123 vec456 o).
Proof.
  intros i j.
  assert (H : shape i = shape j) by reflexivity.
  assert (Hr : (2 <= length (shape i))%nat) by (simpl; lia).
  assert (H' : shape vec123 = shape vec456) by reflexivity.
  assert (Hr' : (1 <= length (shape vec123))%nat) by (simpl; lia).
  split; [exact H|]. split; [exact Hr|].
  destruct (array_forms_elementwise default i j H) as [Ha _].
  destruct (array_forms_elementwise default vec123 vec456 H') as [_ Hv].
  destruct (Ha Hr) as [Ha1 Ha2]. destruct (Hv Hr') as [Hv1 Hv2].
  split; [exact Ha1|]. split; [exact Ha2|]. split; [exact Hv1|exact Hv2].
Defined.

(** *** Instances as objects *)

Import Heap.
Open Scope nat_scope.

Lemma snoc_lookup_self {X} `{!Inhabited X} (l : list X) x :
  (l ++ [x]) !!! length l = x.
Proof. apply list_lookup_total_middle. reflexivity. Qed.

Lemma snoc_insert_self {X} (l : list X) x y :
  <[length l := y]> (l ++ [x]) = l ++ [y].
Proof. rewrite insert_app_r_alt by lia. rewrite Nat.sub_diag. reflexivity. Qed.

(** Running a method body on a heap, and tidying the heap it leaves. *)
Ltac heap_run :=
  cbv beta iota zeta delta
    [Heap.clone Heap.copy_obj Heap.init Heap.three_point_set
     Heap.ep_cdp_points mbind M_bind mret M_ret raise lift modify gets
     new_mat new_vec new_obj getattr setattr deepcopy_mat deepcopy_vec
     load_mat load_vec];
  cbn [mats vecs objs].
Ltac heap_simpl :=
  repeat first
    [ rewrite snoc_lookup_self
    | rewrite snoc_insert_self
    | match goal with
      | |- context [(?l ++ ?k) !!! ?i] =>
          rewrite (lookup_total_app_l l k i)
            by first [assumption | rewrite ?length_app; cbn [length]; lia]
      end
    | rewrite inv_identity2
    | progress cbn [mats vecs objs A_ref b_ref A_inv_ref b_inv_ref utm_val
                    with_A with_b with_A_inv with_b_inv with_utm]
    | progress cbv beta iota ].

Lemma init_run h : Heap.init h = (Ok (length (objs h)), allocated h).
Proof.
  destruct h as [ms vs os]. heap_run. heap_simpl.
  unfold allocated; cbn [mats vecs objs].
  rewrite <- !app_assoc, !length_app, !Nat.add_1_r. reflexivity.
Qed.

Lemma pair_lookup_fst {X} `{!Inhabited X} (l : list X) x y :
  (l ++ [x; y]) !!! length l = x.
Proof. apply list_lookup_total_middle. reflexivity. Qed.

Lemma pair_lookup_snd {X} `{!Inhabited X} (l : list X) x y :
  (l ++ [x; y]) !!! S (length l) = y.
Proof.
  change (l ++ [x; y]) with (l ++ [x] ++ [y]). rewrite app_assoc.
  apply list_lookup_total_middle. rewrite length_app; cbn [length]; lia.
Qed.

Lemma init_view h : view (allocated h) (length (objs h)) = default.
Proof.
  destruct h as [ms vs os]. unfold view, allocated; cbn [mats vecs objs].
  rewrite snoc_lookup_self; cbn [A_ref b_ref A_inv_ref b_inv_ref utm_val].
  rewrite !pair_lookup_fst, !pair_lookup_snd.
  unfold default. f_equal; try (apply vec2_ext; simpl; ring).
Qed.

Lemma clone_run h self :
  (self < length (objs h))%nat -> wf_instance h (objs h !!! self) ->
  Heap.clone self h = (Ok (length (objs h)), cloned h self).
Proof.
  intros Hs (H1 & H2 & H3 & H4). destruct h as [ms vs os].
  cbn [mats vecs objs] in *. heap_run. heap_simpl.
  unfold cloned; cbn [mats vecs objs].
  rewrite <- !app_assoc, !length_app; cbn [length app].
  unfold with_b_inv, with_A_inv, with_b, with_A;
    cbn [A_ref b_ref A_inv_ref b_inv_ref utm_val].
  rewrite !(Nat.add_comm (length ms)), !(Nat.add_comm (length vs)).
  reflexivity.
Qed.

(** A fit changes no instance but [self], drops no array and writes into
    none. *)
Lemma three_point_set_frame self x_y_points i_j_points label h :
  let r := Heap.three_point_set self x_y_points i_j_points label h in
  (exists l, mats r.2 = mats h ++ l) /\
  (exists l, vecs r.2 = vecs h ++ l) /\
  length (objs r.2) = length (objs h) /\
  forall o, o <> self -> objs r.2 !!! o = objs h !!! o.
Proof.
  destruct h as [ms vs os]. heap_run.
  repeat (match goal with
          | |- context [getitem ?l ?i] => destruct (getitem l i)
          | |- context [inv ?m] => destruct (inv m)
          end; cbv beta iota; cbn [snd mats vecs objs]);
    (split; [first [by exists [] ; rewrite app_nil_r | by eexists]|]);
    (split; [first [by exists [] ; rewrite app_nil_r | by eexists]|]);
    (split; [by rewrite !length_insert|]);
    intros o Ho; by rewrite !list_lookup_total_insert_ne.
Qed.

(** The fit on objects does to the attribute values of [self] what the fit
    on values does, and ends the same way. *)
Lemma three_point_set_sim self x_y_points i_j_points label h :
  (self < length (objs h))%nat -> wf_instance h (objs h !!! self) ->
  let r := Heap.three_point_set self x_y_points i_j_points label h in
  CoordinateTransform.three_point_set x_y_points i_j_points label (view h self)
  = (r.1, view r.2 self).
Proof.
  intros Hs (H1 & H2 & H3 & H4). destruct h as [ms vs os].
  cbn [mats vecs objs] in *. heap_run.
  cbv beta iota zeta delta
    [CoordinateTransform.three_point_set CoordinateTransform.ep_cdp_points
     mbind M_bind raise lift modify gets].
  repeat (match goal with
          | |- context [getitem ?l ?i] => destruct (getitem l i)
          | |- context [inv ?m] => destruct (inv m)
          end; cbv beta iota; cbn [fst snd]);
    unfold view, set_A, set_utm; cbn [mats vecs objs A b A_inv b_inv utm];
    rewrite ?list_lookup_total_insert_eq by (rewrite ?length_insert; lia);
    heap_simpl; reflexivity.
Qed.

Lemma wf_lookup h o :
  wf h -> (o < length (objs h))%nat -> wf_instance h (objs h !!! o).
Proof. intros H Ho. apply Forall_lookup_total_1; assumption. Qed.

(** Arrays are only ever added to the heap, so an instance that is not
    rebound keeps its attribute values. *)
Lemma view_frame h h' o lm lv :
  mats h' = mats h ++ lm -> vecs h' = vecs h ++ lv ->
  objs h' !!! o = objs h !!! o -> wf_instance h (objs h !!! o) ->
  view h' o = view h o.
Proof.
  intros Hm Hv Ho (H1 & H2 & H3 & H4). unfold view.
  rewrite Ho, Hm, Hv. rewrite !lookup_total_app_l by assumption. reflexivity.
Qed.

Lemma wf_instance_mono h h' o lm lv :
  mats h' = mats h ++ lm -> vecs h' = vecs h ++ lv ->
  wf_instance h o -> wf_instance h' o.
Proof.
  intros Hm Hv (H1 & H2 & H3 & H4). unfold wf_instance.
  rewrite Hm, Hv, !length_app. repeat split; lia.
Qed.

Lemma cloned_new h self :
  (self < length (objs h))%nat ->
  objs (cloned h self) !!! length (objs h)
  = Instance (2 + length (mats h)) (2 + length (vecs h))
             (3 + length (mats h)) (3 + length (vecs h)) "".
Proof. intros Hs. unfold cloned; cbn [objs]. apply snoc_lookup_self. Qed.

Lemma cloned_view h self :
  (self < length (objs h))%nat ->
  view (cloned h self) (length (objs h)) = set_utm "" (view h self).
Proof.
  intros Hs. unfold view at 1. rewrite cloned_new by exact Hs.
  cbn [A_ref b_ref A_inv_ref b_inv_ref utm_val]. unfold cloned; cbn [mats vecs].
  rewrite !lookup_total_app_r by lia.
  replace (2 + length (mats h) - length (mats h))%nat with 2%nat by lia.
  replace (3 + length (mats h) - length (mats h))%nat with 3%nat by lia.
  replace (2 + length (vecs h) - length (vecs h))%nat with 2%nat by lia.
  replace (3 + length (vecs h) - length (vecs h))%nat with 3%nat by lia.
  reflexivity.
Qed.

Lemma cloned_source h self o :
  (o < length (objs h))%nat -> wf_instance h (objs h !!! o) ->
  view (cloned h self) o = view h o.
Proof.
  intros Ho Hw. eapply view_frame; try exact Hw; try reflexivity.
  unfold cloned; cbn [objs]. apply lookup_total_app_l. exact Ho.
Qed.

(** C9. [clone] returns a new instance whose [A], [b], [A_inv] and [b_inv]
    equal those of the source and are arrays of its own, allocated by the
    call: none is an array of the source, and no two are the same array.
    The source keeps its attribute values, and keeps them, [A] and [b]
    included, through any later [three_point_set] on the clone, however
    that call ends. *)
Theorem clone_independent (h : heap) (t1 : ref) :
  wf h -> (t1 < length (objs h))%nat ->
  exists t2 h1,
    Heap.clone t1 h = (Ok t2, h1) /\
    t2 <> t1 /\
    A (view h1 t2) = A (view h t1) /\ b (view h1 t2) = b (view h t1) /\
    A_inv (view h1 t2) = A_inv (view h t1) /\
    b_inv (view h1 t2) = b_inv (view h t1) /\
    fresh_arrays h (objs h1 !!! t2) /\
    view h1 t1 = view h t1 /\
    forall x_y_points i_j_points label,
      let r := Heap.three_point_set t2 x_y_points i_j_points label h1 in
      A (view r.2 t1) = A (view h t1) /\ b (view r.2 t1) = b (view h t1) /\
      view r.2 t1 = view h t1.
Proof.
  intros Hwf Ht. pose proof (wf_lookup h t1 Hwf Ht) as Hw.
  exists (length (objs h)), (cloned h t1).
  split; [apply clone_run; assumption|].
  split; [lia|].
  rewrite cloned_view by exact Ht.
  do 4 (split; [reflexivity|]).
  split.
  { rewrite cloned_new by exact Ht. unfold fresh_arrays.
    cbn [A_ref b_ref A_inv_ref b_inv_ref]. repeat split; lia. }
  pose proof (cloned_source h t1 t1 Ht Hw) as Hsrc.
  split; [exact Hsrc|].
  intros x_y_points i_j_points label r.
  assert (E : view r.2 t1 = view h t1).
  { rewrite <- Hsrc.
    destruct (three_point_set_frame (length (objs h)) x_y_points i_j_points
                label (cloned h t1)) as ([lm Hm] & [lv Hv] & _ & Ho).
    fold r in Hm, Hv, Ho.
    eapply view_frame; [exact Hm|exact Hv|apply Ho; lia|].
    assert (Hobj : objs (cloned h t1) !!! t1 = objs h !!! t1)
      by (unfold cloned; cbn [objs]; apply lookup_total_app_l; exact Ht).
    rewrite Hobj. eapply wf_instance_mono; [| |exact Hw]; reflexivity. }
  rewrite E. repeat split.
Qed.

Lemma clone_independent_witness :
  let h := allocated Heap.empty in
  wf h /\ (0 < length (objs h))%nat /\
  exists t2 h1,
    Heap.clone 0 h = (Ok t2, h1) /\
    t2 <> 0%nat /\
    A (view h1 t2) = A (view h 0) /\ b (view h1 t2) = b (view h 0) /\
    A_inv (view h1 t2) = A_inv (view h 0) /\
    b_inv (view h1 t2) = b_inv (view h 0) /\
    fresh_arrays h (objs h1 !!! t2) /\
    view h1 0 = view h 0 /\
    forall x_y_points i_j_points label,
      let r := Heap.three_point_set t2 x_y_points i_j_points label h1 in
      A (view r.2 0) = A (view h 0) /\ b (view r.2 0) = b (view h 0) /\
      view r.2 0 = view h 0.
Proof.
  intros h.
  assert (Hwf : wf h).
  { unfold wf, h, allocated; simpl. constructor; [|constructor].
    unfold wf_instance; simpl. repeat split; lia. }
  assert (Ht : (0 < length (objs h))%nat) by (simpl; lia).
  split; [exact Hwf|]. split; [exact Ht|].
  exact (clone_independent h 0%nat Hwf Ht).
Defined.

(** The two copying methods hand over a coherent cache as they find it. *)
Lemma clone_coherent h t1 :
  t1 < length (objs h) -> coherent (view h t1) ->
  coherent (view (cloned h t1) (length (objs h))).
Proof. intros Ht Hc. rewrite cloned_view by exact Ht. exact Hc. Qed.

Lemma copy_obj_view h self old :
  self < length (objs h) -> old < length (objs h) ->
  wf_instance h (objs h !!! old) ->
  let r := Heap.copy_obj self old h in
  r.1 = Ok self /\
  view r.2 self = set_utm (utm (view h self)) (view h old).
Proof.
  intros Hs Ho (H1 & H2 & H3 & H4). destruct h as [ms vs os].
  cbn [mats vecs objs] in *. heap_run.
  split; [reflexivity|]. cbn [snd]. unfold view; cbn [mats vecs objs].
  rewrite !list_lookup_total_insert_eq by (rewrite ?length_insert; lia).
  heap_simpl.
  destruct (decide (self = old)) as [->|Hne].
  - rewrite !list_lookup_total_insert_eq by (rewrite ?length_insert; lia).
    heap_simpl. reflexivity.
  - rewrite !list_lookup_total_insert_ne by exact Hne.
    heap_simpl. reflexivity.
Qed.

Lemma copy_obj_coherent h self old :
  self < length (objs h) -> old < length (objs h) ->
  wf_instance h (objs h !!! old) -> coherent (view h old) ->
  coherent (view (Heap.copy_obj self old h).2 self).
Proof.
  intros Hs Ho Hw Hc.
  destruct (copy_obj_view h self old Hs Ho Hw) as [_ E].
  cbv zeta in E. rewrite E. exact Hc.
Qed.

(** ** Further properties of the class *)

Close Scope nat_scope.

(** *** Comparison *)

Lemma eq_true_iff (s1 s2 : t) :
  __eq__ s1 s2 = true <-> A s1 = A s2 /\ b s1 = b s2.
Proof.
  unfold __eq__, all, mat2_equal, vec2_equal; cbn [forallb id].
  split.
  - intros H.
    destruct (bool_decide (m00 (A s1) = m00 (A s2))) eqn:E1; [|discriminate H].
    destruct (bool_decide (m01 (A s1) = m01 (A s2))) eqn:E2; [|discriminate H].
    destruct (bool_decide (m10 (A s1) = m10 (A s2))) eqn:E3; [|discriminate H].
    destruct (bool_decide (m11 (A s1) = m11 (A s2))) eqn:E4; [|discriminate H].
    destruct (bool_decide (v0 (b s1) = v0 (b s2))) eqn:E5; [|discriminate H].
    destruct (bool_decide (v1 (b s1) = v1 (b s2))) eqn:E6; [|discriminate H].
    apply bool_decide_eq_true in E1, E2, E3, E4, E5, E6.
    split; [apply mat2_ext|apply vec2_ext]; assumption.
  - intros [HA Hb]. rewrite HA, Hb.
    rewrite !bool_decide_eq_true_2 by reflexivity. reflexivity.
Qed.





(** X2. The comparison does not look at the cache, but on two transforms
    whose caches are coherent it settles the inverse maps too: they agree
    at every point. *)
Theorem eq_coherent_same_inverse (s1 s2 : t) (p : vec2) :
  coherent s1 -> coherent s2 -> __eq__ s1 s2 = true -> i_j s1 p = i_j s2 p.
Proof.
  intros [Hi1 Hb1] [Hi2 Hb2] H. apply eq_true_iff in H. destruct H as [HA Hb].
  rewrite HA in Hi1.
  pose proof (is_inverse_unique _ _ _ Hi1 Hi2) as Hinv.
  unfold i_j. rewrite Hb1, Hb2, Hinv, Hb. reflexivity.
Qed.

Lemma eq_coherent_same_inverse_witness :
  let s1 := Build (M2 (q 2) 0 0 1) (V2 (q 3) (q 4))
                  (M2 (1 / q 2) 0 0 1) (V2 (- q 3 / q 2) (- q 4)) "a" in
  let s2 := Build (M2 (q 4 / q 2) 0 0 1) (V2 (q 3) (q 4))
                  (M2 (q 2 / q 4) 0 0 1) (V2 (- q 6 / q 4) (- q 4)) "b" in
  coherent s1 /\ coherent s2 /\ __eq__ s1 s2 = true /\
  i_j s1 (V2 (q 7) (q 8)) = i_j s2 (V2 (q 7) (q 8)).
Proof.
  intros s1 s2.
  assert (H1 : coherent s1) by (repeat split; arr_eval).
  assert (H2 : coherent s2) by (repeat split; arr_eval).
  assert (H : __eq__ s1 s2 = true) by (vm_compute; reflexivity).
  split; [exact H1|]. split; [exact H2|]. split; [exact H|].
  exact (eq_coherent_same_inverse s1 s2 (V2 (q 7) (q 8)) H1 H2 H).
Defined.

(** *** The fit, on every input *)

(** Every run of the method stops in one of three places. *)
Lemma three_point_set_paths s x_y_points i_j_points label :
  let r := CoordinateTransform.three_point_set x_y_points i_j_points label s in
  r = (Raise IndexError, set_utm label s) \/
  r = (Raise LinAlgError, set_utm label s) \/
  exists a, r = (Raise NameError, set_A a (set_utm label s)).
Proof.
  unfold CoordinateTransform.three_point_set, mbind, M_bind, lift, modify,
    gets, CoordinateTransform.ep_cdp_points, raise; simpl.
  repeat match goal with
         | |- context [getitem ?l ?i] =>
             let E := fresh in
             destruct (getitem l i) as [?|[]] eqn:E; simpl;
             try (unfold getitem in E; destruct (_ !! _); discriminate E);
             try (left; reflexivity)
         end.
  destruct (inv _) as [n|e] eqn:E; simpl.
  - right; right. eexists; reflexivity.
  - apply inv_fails in E. destruct E as [-> _]. right; left; reflexivity.
Qed.

(** X5. However a call ends, it has assigned [utm] and has not assigned
    [b], [A_inv] or [b_inv]: [i_j] is the map it was before the call. *)
Theorem fit_never_updates_cache (s : t) (x_y_points i_j_points : list vec2)
    (label : string) (p : vec2) :
  let s' := (CoordinateTransform.three_point_set x_y_points i_j_points label s).2 in
  utm s' = label /\ b s' = b s /\ A_inv s' = A_inv s /\ b_inv s' = b_inv s /\
  i_j s' p = i_j s p.
Proof.
  destruct (three_point_set_paths s x_y_points i_j_points label)
    as [E|[E|[a E]]]; cbv zeta in E; cbv zeta; rewrite E;
    repeat split.
Qed.

(** X6. With fewer than three points in either list the call raises
    [IndexError] with only [utm] assigned. *)
Theorem fit_short_list (s : t) (x_y_points i_j_points : list vec2)
    (label : string) :
  (length x_y_points < 3 \/ length i_j_points < 3)%nat ->
  CoordinateTransform.three_point_set x_y_points i_j_points label s
  = (Raise IndexError, set_utm label s).
Proof.
  intros H.
  unfold CoordinateTransform.three_point_set, mbind, M_bind, lift, modify; simpl.
  destruct x_y_points as [|d0 [|d1 [|d2 dl]]]; try reflexivity.
  destruct i_j_points as [|s0 [|s1 [|s2 sl]]]; try reflexivity.
  simpl in H. lia.
Qed.

Lemma fit_short_list_witness :
  let x_y_points := [V2 (q 5) (q 5); V2 (q 6) (q 5); V2 (q 5) (q 6)] in
  let i_j_points := [V2 0 0; V2 1 0] in
  (length x_y_points < 3 \/ length i_j_points < 3)%nat /\
  CoordinateTransform.three_point_set x_y_points i_j_points "utm31" default
  = (Raise IndexError, set_utm "utm31" default).
Proof.
  intros x_y_points i_j_points.
  assert (H : (length x_y_points < 3 \/ length i_j_points < 3)%nat)
    by (right; simpl; lia).
  split; [exact H|].
  exact (fit_short_list default x_y_points i_j_points "utm31" H).
Defined.

(** *** Array forms, further *)



Lemma array_forms_low_rank_witness :
  let z := NdArray [] (fun _ => q 7) in
  shape vec123 = shape vec456 /\ (length (shape vec123) < 2)%nat /\
  x_y_array default vec123 vec456 = Raise IndexError /\
  i_j_array default vec123 vec456 = Raise IndexError /\
  shape z = shape z /\ (length (shape z) < 1)%nat /\
  x_y_vector default z z = Raise IndexError /\
  i_j_vector default z z = Raise IndexError.
Proof.
  intros z.
  assert (H : shape vec123 = shape vec456) by reflexivity.
  assert (Hr : (length (shape vec123) < 2)%nat) by (simpl; lia).
  assert (Hz : shape z = shape z) by reflexivity.
  assert (Hrz : (length (shape z) < 1)%nat) by (simpl; lia).
  destruct (proj1 (array_forms_low_rank default vec123 vec456 H) Hr)
    as [E1 E2].
  destruct (proj2 (array_forms_low_rank default z z Hz) Hrz) as [E3 E4].
  split; [exact H|]. split; [exact Hr|]. split; [exact E1|].
  split; [exact E2|]. split; [exact Hz|]. split; [exact Hrz|].
  split; [exact E3|exact E4].
Defined.

(** X11. Wherever the array forms work the vector forms return the same:
    on inputs of rank at least 2, [x_y_vector] is [x_y_array] and
    [i_j_vector] is [i_j_array], errors included. *)
Theorem vector_forms_are_array_forms (self : t) (i j : ndarray) :
  (2 <= length (shape i))%nat ->
  x_y_vector self i j = x_y_array self i j /\
  i_j_vector self i j = i_j_array self i j.
Proof.
  intros Hr.
  rewrite x_y_vector_pipeline, x_y_array_pipeline,
    i_j_vector_pipeline, i_j_array_pipeline.
  destruct (decide (shape i = shape j)) as [H|H].
  - rewrite !affine_pipeline by exact H. cbn [mbind res_bind].
    rewrite !getitem_first_take by (rewrite affine_stack_shape; simpl; lia).
    split; reflexivity.
  - rewrite np_array2_differ by exact H. split; reflexivity.
Qed.

Lemma vector_forms_are_array_forms_witness :
  let i := NdArray [2; 3]%nat (fun idx => q (Z.of_nat (hd O idx))) in
  let j := NdArray [2; 3]%nat (fun idx => q (Z.of_nat (List.last idx O))) in
  (2 <= length (shape i))%nat /\
  x_y_vector default i j = x_y_array default i j /\
  i_j_vector default i j = i_j_array default i j.
Proof.
  intros i j.
  assert (Hr : (2 <= length (shape i))%nat) by (simpl; lia).
  split; [exact Hr|]. exact (vector_forms_are_array_forms default i j Hr).
Defined.

Lemma x_y_T_nd_rows_gen m v p :
  shape p <> [] -> List.last (shape p) O = 2%nat ->
  exists o, (d ← dot_mat2 p (transpose m); add_vec2 d v) = Ok o /\
    shape o = shape p /\
    forall r,
      V2 (item o (r ++ [0%nat])) (item o (r ++ [1%nat]))
      = vadd (mvdot m (V2 (item p (r ++ [0%nat])) (item p (r ++ [1%nat])))) v.
Proof.
  intros Hn Hl. rewrite dot_mat2_last by assumption. cbn [mbind res_bind].
  rewrite add_vec2_last by assumption.
  eexists; split; [reflexivity|]. split; [reflexivity|].
  intros r. cbn [item add_last dot_last].
  rewrite !removelast_last, !last_last.
  destruct m, v; unfold vadd, mvdot;
    cbn [mat2_item vec2_item transpose v0 v1 m00 m01 m10 m11].
  apply vec2_ext; cbn [v0 v1]; ring.
Qed.

Lemma x_y_T_nd_misaligned_gen m v p :
  shape p <> [] -> List.last (shape p) O <> 2%nat ->
  (d ← dot_mat2 p (transpose m); add_vec2 d v) = Raise ValueError.
Proof.
  intros Hn Hl. unfold dot_mat2. destruct (shape p) as [|n sh] eqn:E; [done|].
  rewrite decide_False by exact Hl. reflexivity.
Qed.

(** X12. [x_y_T] and [i_j_T] take whole arrays of points: on an array whose
    last axis has length 2 they return an array of the same shape in which
    each pair along the last axis is the image under [x_y] (under [i_j]) of
    the pair at the same place of the argument; on an array whose last axis
    has another length they raise [ValueError]. *)
Theorem transposed_forms_on_rows (self : t) (p : ndarray) :
  shape p <> [] ->
  (List.last (shape p) O = 2%nat ->
     (exists o, x_y_T_nd self p = Ok o /\ shape o = shape p /\
        forall r, V2 (item o (r ++ [0%nat])) (item o (r ++ [1%nat]))
                  = x_y self (V2 (item p (r ++ [0%nat])) (item p (r ++ [1%nat])))) /\
     (exists o, i_j_T_nd self p = Ok o /\ shape o = shape p /\
        forall r, V2 (item o (r ++ [0%nat])) (item o (r ++ [1%nat]))
                  = i_j self (V2 (item p (r ++ [0%nat])) (item p (r ++ [1%nat]))))) /\
  (List.last (shape p) O <> 2%nat ->
     x_y_T_nd self p = Raise ValueError /\ i_j_T_nd self p = Raise ValueError).
Proof.
  intros Hn. split; intros Hl; split.
  - exact (x_y_T_nd_rows_gen (A self) (b self) p Hn Hl).
  - exact (x_y_T_nd_rows_gen (A_inv self) (b_inv self) p Hn Hl).
  - exact (x_y_T_nd_misaligned_gen (A self) (b self) p Hn Hl).
  - exact (x_y_T_nd_misaligned_gen (A_inv self) (b_inv self) p Hn Hl).
Qed.

Lemma transposed_forms_on_rows_witness :
  let s := Build (M2 (q 2) 0 0 1) (V2 (q 3) (q 4))
                 (M2 (1 / q 2) 0 0 1) (V2 (- q 3 / q 2) (- q 4)) "" in
  let p := NdArray [3; 2]%nat (fun idx => q (Z.of_nat (hd O idx))) in
  shape p <> [] /\ List.last (shape p) O = 2%nat /\
  (exists o, x_y_T_nd s p = Ok o /\ shape o = shape p /\
     forall r, V2 (item o (r ++ [0%nat])) (item o (r ++ [1%nat]))
               = x_y s (V2 (item p (r ++ [0%nat])) (item p (r ++ [1%nat])))) /\
  (exists o, i_j_T_nd s p = Ok o /\ shape o = shape p /\
     forall r, V2 (item o (r ++ [0%nat])) (item o (r ++ [1%nat]))
               = i_j s (V2 (item p (r ++ [0%nat])) (item p (r ++ [1%nat])))) /\
  shape vec123 <> [] /\ List.last (shape vec123) O <> 2%nat /\
  x_y_T_nd s vec123 = Raise ValueError /\ i_j_T_nd s vec123 = Raise ValueError.
Proof.
  intros s p.
  assert (Hn : shape p <> []) by (simpl; discriminate).
  assert (Hl : List.last (shape p) O = 2%nat) by reflexivity.
  assert (Hn' : shape vec123 <> []) by (simpl; discriminate).
  assert (Hl' : List.last (shape vec123) O <> 2%nat) by (simpl; lia).
  destruct (proj1 (transposed_forms_on_rows s p Hn) Hl) as [E1 E2].
  destruct (proj2 (transposed_forms_on_rows s vec123 Hn') Hl') as [E3 E4].
  split; [exact Hn|]. split; [exact Hl|]. split; [exact E1|].
  split; [exact E2|]. split; [exact Hn'|]. split; [exact Hl'|].
  split; [exact E3|exact E4].
Defined.

(** *** Copies and instances, further *)

Open Scope nat_scope.

(** The heap [copy_obj] leaves: two new matrices, two new vectors, and
    [self] rebound to them with its label kept. *)
Lemma copy_obj_run h self old :
  self < length (objs h) -> old < length (objs h) ->
  wf_instance h (objs h !!! old) ->
  Heap.copy_obj self old h
  = (Ok self,
     Mk (mats h ++ [mats h !!! A_ref (objs h !!! old);
                    mats h !!! A_inv_ref (objs h !!! old)])
        (vecs h ++ [vecs h !!! b_ref (objs h !!! old);
                    vecs h !!! b_inv_ref (objs h !!! old)])
        (<[self := Instance (length (mats h)) (length (vecs h))
                            (S (length (mats h))) (S (length (vecs h)))
                            (utm_val (objs h !!! self))]> (objs h))).
Proof.
  intros Hs Ho (H1 & H2 & H3 & H4). destruct h as [ms vs os].
  cbn [mats vecs objs] in *. heap_run.
  rewrite !list_lookup_total_insert_eq by (rewrite ?length_insert; lia).
  heap_simpl. rewrite !list_insert_insert_eq.
  destruct (decide (self = old)) as [->|Hne].
  - rewrite !list_lookup_total_insert_eq by (rewrite ?length_insert; lia).
    heap_simpl. rewrite <- !app_assoc, !length_app, !Nat.add_1_r. reflexivity.
  - rewrite !list_lookup_total_insert_ne by exact Hne.
    heap_simpl. rewrite <- !app_assoc, !length_app, !Nat.add_1_r. reflexivity.
Qed.

(** X13. [copy_obj] returns [self], whose [A], [b], [A_inv] and [b_inv] are
    then new arrays holding the values of [old_transform]'s; [self] keeps
    its own label and compares equal to [old_transform]; every other
    instance, [old_transform] included, keeps its attribute values.  This
    holds also when [self] and [old_transform] are one instance. *)
Theorem copy_obj_overwrites (h : heap) (self old : ref) :
  wf h -> self < length (objs h) -> old < length (objs h) ->
  let r := Heap.copy_obj self old h in
  r.1 = Ok self /\
  A (view r.2 self) = A (view h old) /\ b (view r.2 self) = b (view h old) /\
  A_inv (view r.2 self) = A_inv (view h old) /\
  b_inv (view r.2 self) = b_inv (view h old) /\
  utm (view r.2 self) = utm (view h self) /\
  __eq__ (view r.2 self) (view h old) = true /\
  fresh_arrays h (objs r.2 !!! self) /\
  forall o, o < length (objs h) -> o <> self -> view r.2 o = view h o.
Proof.
  intros Hwf Hs Ho r. subst r.
  rewrite (copy_obj_run h self old Hs Ho (wf_lookup h old Hwf Ho)).
  cbn [fst snd].
  set (h' := Mk _ _ _).
  assert (Eo : objs h' !!! self
               = Instance (length (mats h)) (length (vecs h))
                   (S (length (mats h))) (S (length (vecs h)))
                   (utm_val (objs h !!! self))).
  { unfold h'; cbn [objs]. apply list_lookup_total_insert_eq. exact Hs. }
  assert (Ev : view h' self = set_utm (utm (view h self)) (view h old)).
  { unfold view at 1. rewrite Eo.
    cbn [A_ref b_ref A_inv_ref b_inv_ref utm_val]. unfold h'; cbn [mats vecs].
    rewrite !pair_lookup_fst, !pair_lookup_snd. reflexivity. }
  split; [reflexivity|]. rewrite Ev.
  do 5 (split; [reflexivity|]).
  split; [apply eq_true_iff; split; reflexivity|].
  split.
  { rewrite Eo. unfold fresh_arrays.
    cbn [A_ref b_ref A_inv_ref b_inv_ref]. repeat split; lia. }
  intros o Hlt Hne.
  eapply (view_frame h h' o); [reflexivity|reflexivity| |].
  - unfold h'; cbn [objs]. apply list_lookup_total_insert_ne. congruence.
  - apply wf_lookup; assumption.
Qed.

Lemma copy_obj_overwrites_witness :
  let h := allocated (allocated Heap.empty) in
  wf h /\ 1 < length (objs h) /\ 0 < length (objs h) /\
  let r := Heap.copy_obj 1 0 h in
  r.1 = Ok 1 /\
  A (view r.2 1) = A (view h 0) /\ b (view r.2 1) = b (view h 0) /\
  A_inv (view r.2 1) = A_inv (view h 0) /\
  b_inv (view r.2 1) = b_inv (view h 0) /\
  utm (view r.2 1) = utm (view h 1) /\
  __eq__ (view r.2 1) (view h 0) = true /\
  fresh_arrays h (objs r.2 !!! 1) /\
  forall o, o < length (objs h) -> o <> 1 -> view r.2 o = view h o.
Proof.
  intros h.
  assert (Hwf : wf h).
  { unfold wf, h, allocated; simpl. repeat constructor; simpl; lia. }
  assert (H1 : 1 < length (objs h)) by (simpl; lia).
  assert (H0 : 0 < length (objs h)) by (simpl; lia).
  split; [exact Hwf|]. split; [exact H1|]. split; [exact H0|].
  exact (copy_obj_overwrites h 1 0 Hwf H1 H0).
Defined.

(** X14. The instance [clone] returns has the empty label whatever the
    label of the source, compares equal to the source, has a coherent cache
    if the source has one, and its creation changes the attribute values of
    no instance that existed before. *)
Theorem clone_drops_label (h : heap) (t1 : ref) :
  wf h -> t1 < length (objs h) ->
  exists t2 h1,
    Heap.clone t1 h = (Ok t2, h1) /\
    utm (view h1 t2) = ""%string /\
    __eq__ (view h1 t2) (view h t1) = true /\
    (coherent (view h t1) -> coherent (view h1 t2)) /\
    forall o, o < length (objs h) -> view h1 o = view h o.
Proof.
  intros Hwf Ht. exists (length (objs h)), (cloned h t1).
  split; [apply clone_run; [exact Ht|apply wf_lookup; assumption]|].
  rewrite cloned_view by exact Ht.
  split; [reflexivity|].
  split; [apply eq_true_iff; split; reflexivity|].
  split; [intros Hc; exact Hc|].
  intros o Ho. apply cloned_source; [exact Ho|apply wf_lookup; assumption].
Qed.

Lemma clone_drops_label_witness :
  let h := (Heap.setattr (with_utm "utm31") 0 (allocated Heap.empty)).2 in
  wf h /\ 0 < length (objs h) /\ utm (view h 0) = "utm31"%string /\
  exists t2 h1,
    Heap.clone 0 h = (Ok t2, h1) /\
    utm (view h1 t2) = ""%string /\
    __eq__ (view h1 t2) (view h 0) = true /\
    (coherent (view h 0) -> coherent (view h1 t2)) /\
    forall o, o < length (objs h) -> view h1 o = view h o.
Proof.
  intros h.
  assert (Hwf : wf h).
  { unfold wf, h; simpl. repeat constructor; simpl; lia. }
  assert (H0 : 0 < length (objs h)) by (simpl; lia).
  split; [exact Hwf|]. split; [exact H0|]. split; [reflexivity|].
  exact (clone_drops_label h 0 Hwf H0).
Defined.

(** X15. A fit on one instance, however it ends, changes the attribute
    values of no other instance. *)
Theorem fit_touches_only_self (h : heap) (self o : ref)
    (x_y_points i_j_points : list vec2) (label : string) :
  wf h -> o < length (objs h) -> o <> self ->
  view (Heap.three_point_set self x_y_points i_j_points label h).2 o
  = view h o.
Proof.
  intros Hwf Ho Hne.
  destruct (three_point_set_frame self x_y_points i_j_points label h)
    as ([lm Hm] & [lv Hv] & _ & Hobj).
  eapply view_frame; [exact Hm|exact Hv|apply Hobj; exact Hne|].
  apply wf_lookup; assumption.
Qed.

Lemma fit_touches_only_self_witness :
  let h := allocated (allocated Heap.empty) in
  wf h /\ 0 < length (objs h) /\ 0 <> 1 /\
  view (Heap.three_point_set 1
          [V2 (q 5) (q 5); V2 (q 7) (q 5); V2 (q 5) (q 6)]
          [V2 0%Qc 0%Qc; V2 1%Qc 0%Qc; V2 0%Qc 1%Qc] "" h).2 0
  = view h 0.
Proof.
  intros h.
  assert (Hwf : wf h).
  { unfold wf, h, allocated; simpl. repeat constructor; simpl; lia. }
  assert (H0 : 0 < length (objs h)) by (simpl; lia).
  assert (Hne : 0 <> 1) by lia.
  split; [exact Hwf|]. split; [exact H0|]. split; [exact Hne|].
  exact (fit_touches_only_self h 1 0 _ _ "" Hwf H0 Hne).
Defined.

(** *** append_list *)

Lemma append_list_from_separate fuel i base_list add_list name_list :
  length add_list - i < fuel ->
  append_list_from fuel i base_list (Separate add_list) name_list
  = Some (base_list
          ++ map (fun name => (name +:+ "_") +:+ name_list) (drop i add_list)).
Proof.
  revert i base_list. induction fuel as [|fuel IH]; intros i base_list Hf.
  - lia.
  - cbn [append_list_from]. destruct (add_list !! i) as [name|] eqn:E.
    + rewrite IH by (apply lookup_lt_Some in E; lia).
      rewrite (drop_S _ _ _ E). cbn [map]. rewrite <- app_assoc. reflexivity.
    + apply lookup_ge_None in E. rewrite drop_ge by exact E.
      cbn [map]. rewrite app_nil_r. reflexivity.
Qed.

(** X16. When [add_list] is a list of its own the loop ends after one step
    per entry, and [base_list] is then what it was followed by each entry
    of [add_list], in order, with ["_"] and [name_list] appended: nothing
    already in [base_list] is changed or dropped. *)
Theorem append_list_separate (fuel : nat) (base_list add_list : list string)
    (name_list : string) :
  length add_list < fuel ->
  append_list fuel base_list (Separate add_list) name_list
  = Some (base_list
          ++ map (fun name => (name +:+ "_") +:+ name_list) add_list).
Proof.
  intros Hf. unfold append_list.
  rewrite append_list_from_separate by lia. rewrite drop_0. reflexivity.
Qed.

Lemma append_list_separate_witness :
  length ["a"%string; "b"%string] < 3 /\
  append_list 3 ["x"%string] (Separate ["a"%string; "b"%string]) "run"
  = Some ["x"%string; "a_run"%string; "b_run"%string].
Proof.
  assert (H : length ["a"%string; "b"%string] < 3) by (simpl; lia).
  split; [exact H|].
  exact (append_list_separate 3 ["x"%string] ["a"%string; "b"%string]
           "run" H).
Defined.

Lemma append_list_from_same fuel i base_list name_list :
  i < length base_list ->
  append_list_from fuel i base_list SameObject name_list = None.
Proof.
  revert i base_list. induction fuel as [|fuel IH]; intros i base_list Hi.
  - reflexivity.
  - cbn [append_list_from].
    destruct (lookup_lt_is_Some_2 base_list i Hi) as [name E]. rewrite E.
    apply IH. rewrite length_app; cbn [length]. lia.
Qed.

(** X17. When one non-empty list is passed as both [base_list] and
    [add_list] the loop never ends: every step appends an entry, so the
    iterator never reaches the end of the list. *)
Theorem append_list_same_object_runs_on (fuel : nat) (base_list : list string)
    (name_list : string) :
  base_list <> [] ->
  append_list fuel base_list SameObject name_list = None.
Proof.
  intros Hne. apply append_list_from_same.
  destruct base_list; [done|]. cbn [length]. lia.
Qed.

Lemma append_list_same_object_runs_on_witness :
  ["a"%string] <> [] /\
  append_list 1000 ["a"%string] SameObject "run" = None.
Proof.
  assert (H : ["a"%string] <> []) by discriminate.
  split; [exact H|].
  exact (append_list_same_object_runs_on 1000 ["a"%string] "run" H).
Defined.

(** *** AttrDict *)

(** X18. For a name that is not an attribute of [dict], assigning the
    attribute and reading it returns the assigned value; and after an
    assignment to one name, reading any other name gives what it gave
    before. *)
Theorem attr_write_read {V : Type} (dict_attribute : string -> bool)
    (d : gmap string V) (k : string) (v : V) :
  dict_attribute k = false ->
  AttrDict.getattr dict_attribute (AttrDict.setattr d k v) k = AttrDict.Item v /\
  forall k', k' <> k ->
    AttrDict.getattr dict_attribute (AttrDict.setattr d k v) k'
    = AttrDict.getattr dict_attribute d k'.
Proof.
  intros Hk. unfold AttrDict.getattr, AttrDict.setattr, AttrDict.__setattr__,
    AttrDict.__getattr__.
  split.
  - rewrite Hk, lookup_insert_eq. reflexivity.
  - intros k' Hne. rewrite lookup_insert_ne by congruence. reflexivity.
Qed.

Lemma attr_write_read_witness :
  let dict_attribute := fun k : string => bool_decide (k = "keys"%string) in
  dict_attribute "nx"%string = false /\
  AttrDict.getattr dict_attribute
    (AttrDict.setattr (∅ : gmap string nat) "nx"%string 5) "nx"%string
  = AttrDict.Item 5 /\
  forall k', k' <> "nx"%string ->
    AttrDict.getattr dict_attribute
      (AttrDict.setattr (∅ : gmap string nat) "nx"%string 5) k'
    = AttrDict.getattr dict_attribute (∅ : gmap string nat) k'.
Proof.
  intros dict_attribute.
  assert (H : dict_attribute "nx"%string = false) by reflexivity.
  split; [exact H|].
  exact (attr_write_read dict_attribute ∅ "nx"%string 5 H).
Defined.

(** X19. For a name that is an attribute of [dict], such as [keys], the
    assignment stores the value as an item, and reading the attribute still
    gives what [dict] has under the name, not the value. *)
Theorem attr_shadowed {V : Type} (dict_attribute : string -> bool)
    (d : gmap string V) (k : string) (v : V) :
  dict_attribute k = true ->
  AttrDict.setattr d k v !! k = Some v /\
  AttrDict.getattr dict_attribute (AttrDict.setattr d k v) k
  = AttrDict.ClassAttribute k.
Proof.
  intros Hk. unfold AttrDict.getattr, AttrDict.setattr, AttrDict.__setattr__.
  split; [apply lookup_insert_eq|]. rewrite Hk. reflexivity.
Qed.

Lemma attr_shadowed_witness :
  let dict_attribute := fun k : string => bool_decide (k = "keys"%string) in
  dict_attribute "keys"%string = true /\
  AttrDict.setattr (∅ : gmap string nat) "keys"%string 5 !! "keys"%string
  = Some 5 /\
  AttrDict.getattr dict_attribute
    (AttrDict.setattr (∅ : gmap string nat) "keys"%string 5) "keys"%string
  = AttrDict.ClassAttribute "keys"%string.
Proof.
  intros dict_attribute.
  assert (H : dict_attribute "keys"%string = true) by reflexivity.
  split; [exact H|].
  exact (attr_shadowed dict_attribute ∅ "keys"%string 5 H).
Defined.

(** X20. Reading an attribute raises exactly when the name is neither an
    attribute of [dict] nor a key, and what is raised is the [KeyError] of
    the item lookup, with that name. *)
Theorem attr_missing {V : Type} (dict_attribute : string -> bool)
    (d : gmap string V) (k k' : string) :
  AttrDict.getattr dict_attribute d k = AttrDict.KeyError k' <->
  dict_attribute k = false /\ d !! k = None /\ k' = k.
Proof.
  unfold AttrDict.getattr, AttrDict.__getattr__.
  destruct (dict_attribute k); [split; [discriminate|intros (H & _); discriminate H]|].
  destruct (d !! k) as [v|].
  - split; [discriminate|intros (_ & H & _); discriminate H].
  - split.
    + intros H. injection H as ->. auto.
    + intros (_ & _ & ->). reflexivity.
Qed.

(** ** The class whatever the arithmetic *)

Close Scope nat_scope.

Section AnyArithmetic.

Variable num : Type.
Variables (add sub mul : num -> num -> num) (neg : num -> num).
Variable linalg_inv : Numeric.mat num -> res (Numeric.mat num).

(** A run of the fit ends in an exception with only [utm] assigned, or at
    the load of [ep_cdp_points] with [A] assigned as well. *)
Lemma numeric_fit_paths (s : Numeric.t num)
    (x_y_points i_j_points : list (Numeric.vec num)) (label : string) :
  let r := Numeric.three_point_set num add sub mul neg linalg_inv
             x_y_points i_j_points label s in
  (exists e, r = (Raise e, Numeric.set_utm num label s)) \/
  (exists a, r = (Raise NameError,
                  Numeric.set_A num a (Numeric.set_utm num label s))).
Proof.
  unfold Numeric.three_point_set, mbind, M_bind, lift, modify, gets,
    Numeric.ep_cdp_points, raise; simpl.
  repeat match goal with
         | |- context [getitem ?l ?i] =>
             destruct (getitem l i); simpl;
             try (left; eexists; reflexivity)
         end.
  destruct (linalg_inv _); simpl.
  - right. eexists; reflexivity.
  - left. eexists; reflexivity.
Qed.

(** X4. [three_point_set] returns normally on no input: whatever the point
    lists hold, whatever arithmetic the arrays carry and whatever
    [linalg.inv] does, the call ends in an exception. *)
Theorem fit_never_returns (s : Numeric.t num)
    (x_y_points i_j_points : list (Numeric.vec num)) (label : string) :
  exists e,
    (Numeric.three_point_set num add sub mul neg linalg_inv
       x_y_points i_j_points label s).1 = Raise e.
Proof.
  destruct (numeric_fit_paths s x_y_points i_j_points label)
    as [[e E]|[a E]]; cbv zeta in E; rewrite E; eexists; reflexivity.
Qed.

(** C10, as the code has it. When [linalg.inv(ds)] raises, the fit ends
    with that exception, [A], [b], [A_inv] and [b_inv] keep their values,
    and [utm] already holds the new label. *)
Theorem failed_inverse_keeps_maps (s : Numeric.t num)
    (d0 d1 d2 s0 s1 s2 : Numeric.vec num) (label : string) (e : exn) :
  linalg_inv (Numeric.delta num sub s0 s1 s2) = Raise e ->
  let r := Numeric.three_point_set num add sub mul neg linalg_inv
             [d0; d1; d2] [s0; s1; s2] label s in
  r.1 = Raise e /\
  Numeric.A num r.2 = Numeric.A num s /\ Numeric.b num r.2 = Numeric.b num s /\
  Numeric.A_inv num r.2 = Numeric.A_inv num s /\
  Numeric.b_inv num r.2 = Numeric.b_inv num s /\
  Numeric.utm num r.2 = label.
Proof.
  intros H r. subst r. unfold Numeric.delta in H.
  unfold Numeric.three_point_set, mbind, M_bind, lift, modify; simpl.
  rewrite H. repeat split.
Qed.

(** What the entries stand for. *)
Variable val : num -> option Qc.


End AnyArithmetic.

(** ** The class in doubles *)

Lemma transform_ext (s s' : CoordinateTransform.t) :
  CoordinateTransform.A s = CoordinateTransform.A s' ->
  CoordinateTransform.b s = CoordinateTransform.b s' ->
  CoordinateTransform.A_inv s = CoordinateTransform.A_inv s' ->
  CoordinateTransform.b_inv s = CoordinateTransform.b_inv s' ->
  CoordinateTransform.utm s = CoordinateTransform.utm s' -> s = s'.
Proof. destruct s, s'; simpl; intros; subst; reflexivity. Qed.

(** Closed equalities between the numbers two computations end in. *)
Ltac val_eval :=
  vm_compute;
  repeat first [ reflexivity
               | apply (f_equal Some)
               | apply transform_ext
               | apply mat2_ext
               | apply vec2_ext
               | apply Qc_is_canon ].

(** In doubles the constructor builds what it builds over the rationals,
    zeros with a sign apart; and [linalg.inv] inverts diag(2, 1). *)
Lemma f64_init_default :
  exists s, F64.init = Ok s /\ Numeric.val_t _ F64.val s = Some default.
Proof. eexists. split; [vm_compute; reflexivity|val_eval]. Qed.

Lemma f64_linalg_inv_diag :
  exists n, F64.linalg_inv
              (Numeric.Mat _ (F64.of_Z 2) F64.zero F64.zero F64.one) = Ok n /\
    Numeric.val_mat _ F64.val n = Some (M2 (1 / q 2) 0 0 1).
Proof. eexists. split; [vm_compute; reflexivity|val_eval]. Qed.



Lemma failed_inverse_keeps_maps_witness :
  let s := F64.Build
             (Numeric.Mat _ (F64.of_Z 2) F64.zero F64.zero F64.one)
             (Numeric.Vec _ (F64.of_Z 3) (F64.of_Z 4))
             (Numeric.Mat _ (F64.ratio 1 2) F64.zero F64.zero F64.one)
             (Numeric.Vec _ (F64.ratio (-3) 2) (F64.of_Z (-4))) "old" in
  let r := F64.three_point_set [F64.point 5 5; F64.point 6 5; F64.point 5 6]
             [F64.point 0 0; F64.point 1 0; F64.point 2 0] "utm31" s in
  F64.linalg_inv
    (Numeric.delta _ F64.sub (F64.point 0 0) (F64.point 1 0) (F64.point 2 0))
  = Raise LinAlgError /\
  r.1 = Raise LinAlgError /\
  Numeric.A _ r.2 = Numeric.A _ s /\ Numeric.b _ r.2 = Numeric.b _ s /\
  Numeric.A_inv _ r.2 = Numeric.A_inv _ s /\
  Numeric.b_inv _ r.2 = Numeric.b_inv _ s /\
  Numeric.utm _ r.2 = "utm31"%string.
Proof.
  intros s r.
  assert (H : F64.linalg_inv
                (Numeric.delta _ F64.sub (F64.point 0 0) (F64.point 1 0)
                   (F64.point 2 0))
              = Raise LinAlgError) by (vm_compute; reflexivity).
  split; [exact H|].
  exact (failed_inverse_keeps_maps spec_float F64.add F64.sub F64.mul F64.neg
           F64.linalg_inv s (F64.point 5 5) (F64.point 6 5) (F64.point 5 6)
           (F64.point 0 0) (F64.point 1 0) (F64.point 2 0) "utm31"
           LinAlgError H).
Defined.

(** C10 fails in doubles. With the source point (1, 49) given twice the
    difference matrix has the columns (1, 49) and (1, 49); its LU
    factorisation has the pivots 49 and 1 - (1/49) 49, which is 2^-53 and
    not zero, so [linalg.inv] returns, [A] is assigned, and the call ends
    in [NameError] with [A] no longer what it was. *)
Lemma duplicated_points_overwrite_A :
  let s := F64.Build
             (Numeric.Mat _ F64.one F64.zero F64.zero F64.one)
             (Numeric.Vec _ F64.zero F64.zero)
             (Numeric.Mat _ F64.one F64.zero F64.zero F64.one)
             (Numeric.Vec _ F64.zero F64.zero) "" in
  let r := F64.three_point_set [F64.point 5 5; F64.point 6 5; F64.point 5 6]
             [F64.point 0 0; F64.point 1 49; F64.point 1 49] "utm31" s in
  F64.sub F64.one (F64.mul (F64.div F64.one (F64.of_Z 49)) (F64.of_Z 49))
  = S754_finite false 4503599627370496 (-105) /\
  (exists n, F64.linalg_inv
               (Numeric.delta _ F64.sub (F64.point 0 0) (F64.point 1 49)
                  (F64.point 1 49)) = Ok n) /\
  r.1 = Raise NameError /\
  Numeric.A _ r.2 <> Numeric.A _ s /\
  Numeric.utm _ r.2 = "utm31"%string.
Proof.
  intros s r.
  split; [vm_compute; reflexivity|].
  split; [eexists; vm_compute; reflexivity|].
  split; [vm_compute; reflexivity|].
  split; [|vm_compute; reflexivity].
  intros H. vm_compute in H. discriminate H.
Qed.
